(** * dump_parsed.py: normalised dump of parsed module metadata

    A shallow embedding of [dump_parsed.py] and the properties of its
    canonical output.

    Conventions of the embedding.
    - A Python [str] is a [string] holding its UTF-8 bytes.  Python orders
      strings by code point; byte-wise comparison of UTF-8 text gives the
      same order, so [String.ltb] stands for [<] on [str].
    - Python integers are [Z]; [len] of a list is [Z.of_nat (length l)].
    - A [dict] or [OrderedDict] with string keys is an association list in
      insertion order, updated with [setitem] (an existing key keeps its
      position and gets the new value, a new key goes to the end).
    - [sorted(xs, key=k)] is a stable sort that compares keys with [<] only;
      it is embedded as a stable insertion sort.  A stable sort of a list is
      determined by the order on the keys, so the result is the list Python
      returns.
    - The [*Info] classes are not part of this file's source; their fields
      are the attributes that [dump_parsed.py] reads.
    - [str] of a value with text in it needs to know which characters are
      printable.  That is a table of the interpreter, the class [Unicode];
      the serialisers and the properties take it as a parameter. *)

From Stdlib Require Import ZArith Ascii.
From stdpp Require Import base list strings sorting gmap pretty.

Local Open Scope Z_scope.
#[local] Set Warnings "-register-all".

(** ** Plain data emitted by the serialisers *)

Inductive value : Type :=
| VNone
| VBool (b : bool)
| VInt (n : Z)
| VStr (s : string)
| VTuple (xs : list value)
| VList (xs : list value)
| VDict (kvs : list (string * value))
| VOrderedDict (kvs : list (string * value)).

(** The contents of a dictionary: keys in insertion order. *)
Abbreviation dict := (list (string * value)).

Fixpoint getitem (k : string) (d : dict) : option value :=
  match d with
  | [] => None
  | (k', v) :: d' => if String.eqb k' k then Some v else getitem k d'
  end.

(** [d[k] = v] *)
Fixpoint setitem (k : string) (v : value) (d : dict) : dict :=
  match d with
  | [] => [(k, v)]
  | (k', v') :: d' =>
      if String.eqb k' k then (k', v) :: d' else (k', v') :: setitem k v d'
  end.

(** [OrderedDict(pairs)]: the pairs are inserted from left to right. *)
Definition OrderedDict (pairs : list (string * value)) : dict :=
  fold_left (fun d kv => setitem kv.1 kv.2 d) pairs [].

Definition keys (d : dict) : list string := d.*1.

Definition len {A} (l : list A) : Z := Z.of_nat (length l).

(** Truth value of a list: [if xs:] *)
Definition truthy {A} (l : list A) : bool :=
  match l with [] => false | _ => true end.


(** ** Keys that [sorted] can compare: Python's [<] *)

Class PyOrd (K : Type) := py_lt : K -> K -> bool.

#[export] Instance string_pyord : PyOrd string := String.ltb.
#[export] Instance Z_pyord : PyOrd Z := Z.ltb.

(** Tuples compare lexicographically: the first components decide unless
    they are equal. *)
#[export] Instance pair_pyord `{EqDecision A, PyOrd A, PyOrd B} : PyOrd (A * B) :=
  fun p q => if decide (p.1 = q.1) then py_lt p.2 q.2 else py_lt p.1 q.1.

(** ** [sorted(xs, key=key)] *)

Section sorted.
Context {A K : Type} `{PyOrd K} (key : A -> K).

(** [x] goes in front of the first element whose key is not smaller:
    among equal keys, the earlier element of the input stays first. *)
Fixpoint insert_by (x : A) (l : list A) : list A :=
  match l with
  | [] => [x]
  | y :: l' =>
      if py_lt (key y) (key x) then y :: insert_by x l' else x :: y :: l'
  end.

Definition sorted (l : list A) : list A := foldr insert_by [] l.

(** [a] may stand before [b] in a sorted list. *)
Definition key_le (a b : A) : Prop := py_lt (key b) (key a) = false.
Definition key_lt (a b : A) : Prop := py_lt (key a) (key b) = true.

End sorted.

(** ** [repr] and [str] of the values used as sort keys

    [repr] of a [str] picks the quote (double quotes only when the text has
    a single quote and no double quote), escapes the quote, the backslash,
    tab, newline and carriage return, and writes the other ASCII control
    characters as a two-digit hexadecimal escape.  A character outside ASCII
    is copied when it is printable and escaped otherwise, with two, four or
    eight hexadecimal digits according to its code point.

    Whether a code point is printable is decided by the Unicode database of
    the interpreter, which is not part of the source: it is the table
    [isprintable] of the class [Unicode], and every property below holds for
    every table.  The text is held as UTF-8 bytes, so a character outside
    ASCII is a lead byte with one, two or three continuation bytes (a lone
    surrogate is held as its three bytes); other bytes from 0x80 on do not
    occur in the encoding of a [str] and are copied. *)

Class Unicode := isprintable : N -> bool.

Definition backslash : ascii := ascii_of_N 92.
Definition dquote : ascii := ascii_of_N 34.
Definition squote : ascii := ascii_of_N 39.

Definition hex_digit (n : N) : ascii :=
  ascii_of_N (if (n <? 10)%N then 48 + n else 87 + n)%N.

Definition contains (c : ascii) (s : string) : bool :=
  bool_decide (c ∈ String.list_ascii_of_string s).

Definition char (c : ascii) : string := String c EmptyString.

(** An ASCII character. *)
Definition repr_char (quote c : ascii) : string :=
  let n := N_of_ascii c in
  if bool_decide (c = quote) || bool_decide (c = backslash)
  then String backslash (char c)
  else if (n =? 9)%N then String backslash "t"
  else if (n =? 10)%N then String backslash "n"
  else if (n =? 13)%N then String backslash "r"
  else if (n <? 32)%N || (n =? 127)%N
  then String backslash
         (String "x" (String (hex_digit (n / 16)) (char (hex_digit (n mod 16)))))
  else char c.

(** [n] in hexadecimal, lower case, with [width] digits. *)
Fixpoint hex_digits (width : nat) (n : N) : string :=
  match width with
  | O => EmptyString
  | S w => hex_digits w (n / 16) +:+ char (hex_digit (n mod 16))
  end.

(** The escape of a code point outside ASCII. *)
Definition escape (cp : N) : string :=
  if (cp <? 256)%N then String backslash (String "x" (hex_digits 2 cp))
  else if (cp <? 65536)%N then String backslash (String "u" (hex_digits 4 cp))
  else String backslash (String "U" (hex_digits 8 cp)).

(** A character outside ASCII, given by its code point and its bytes. *)
Definition repr_code_point `{Unicode} (cp : N) (bytes : string) : string :=
  if isprintable cp then bytes else escape cp.

Definition continuation (c : ascii) : bool :=
  (128 <=? N_of_ascii c)%N && (N_of_ascii c <? 192)%N.

Definition payload (c : ascii) : N := (N_of_ascii c - 128)%N.

Definition lead (low high : N) (c : ascii) : bool :=
  (low <=? N_of_ascii c)%N && (N_of_ascii c <? high)%N.

Fixpoint repr_body `{Unicode} (quote : ascii) (s : string) : string :=
  match s with
  | EmptyString => EmptyString
  | String c s1 =>
      if (N_of_ascii c <? 128)%N then repr_char quote c +:+ repr_body quote s1
      else
        match s1 with
        | String c2 s2 =>
            if lead 192 224 c && continuation c2 then
              repr_code_point ((N_of_ascii c - 192) * 64 + payload c2)
                (String c (char c2))
              +:+ repr_body quote s2
            else
              match s2 with
              | String c3 s3 =>
                  if lead 224 240 c && continuation c2 && continuation c3 then
                    repr_code_point
                      ((N_of_ascii c - 224) * 4096 + payload c2 * 64 + payload c3)
                      (String c (String c2 (char c3)))
                    +:+ repr_body quote s3
                  else
                    match s3 with
                    | String c4 s4 =>
                        if lead 240 248 c && continuation c2 && continuation c3
                           && continuation c4 then
                          repr_code_point
                            ((N_of_ascii c - 240) * 262144 + payload c2 * 4096
                             + payload c3 * 64 + payload c4)
                            (String c (String c2 (String c3 (char c4))))
                          +:+ repr_body quote s4
                        else char c +:+ repr_body quote s1
                    | EmptyString => char c +:+ repr_body quote s1
                    end
              | EmptyString => char c +:+ repr_body quote s1
              end
        | EmptyString => char c
        end
  end.

Definition repr_str `{Unicode} (s : string) : string :=
  let quote :=
    if contains squote s && negb (contains dquote s) then dquote else squote in
  char quote +:+ repr_body quote s +:+ char quote.

(** [str] of a list of strings: [['a', 'b']]. *)
Definition str_list `{Unicode} (l : list string) : string :=
  "[" +:+ String.concat ", " (repr_str <$> l) +:+ "]".

(** A table for text that is ASCII throughout, as the sample metadata
    below: for such text the table is not consulted. *)
Definition ascii_table : Unicode := fun _ => false.

(** ** The parsed metadata read by the serialisers

    The classes of the snapshot are declared outside [dump_parsed.py].  Each
    record below has the attributes that the serialisers read, with the types
    of the data model of the specification. *)

(** An argument is a triple (name, type, default value). *)
Definition arg : Type := string * string * option string.

(** Modelled from the spec: the class [FunctionInfo], a function with its
    name, return type, ordered arguments and flags. *)
Module FunctionInfo.
Record t := mk {
  name : string;
  return_type : option string;
  args : list arg;
  inline : bool;
  namespace : string;
}.
End FunctionInfo.

(** Modelled from the spec: the class [MethodInfo], used for methods, static
    methods, class operators and constructors; a constructor has no return
    type. *)
Module MethodInfo.
Record t := mk {
  name : string;
  return_type : option string;
  args : list arg;
  const : bool;
  virtual : bool;
  pure_virtual : bool;
  inline : bool;
}.
End MethodInfo.

(** Modelled from the spec: the class [FieldInfo]. *)
Module FieldInfo.
Record t := mk {
  name : string;
  type : string;
  const : bool;
  pod : bool;
}.
End FieldInfo.

(** Modelled from the spec: the class [EnumInfo], with its (label, value)
    pairs in the order they are stored. *)
Module EnumInfo.
Record t := mk {
  name : string;
  values : list (string * Z);
  anonymous : bool;
}.
End EnumInfo.

(** Modelled from the spec: the class [TypedefInfo].  [template_base] and
    [template_args] may be missing from the object; [None] stands for a
    missing attribute as well as for a [None] value. *)
Module TypedefInfo.
Record t := mk {
  name : string;
  type : string;
  pod : bool;
  template_base : option string;
  template_args : option (list string);
}.
End TypedefInfo.

(** Modelled from the spec: the class [ClassInfo]. *)
Module ClassInfo.
Record t := mk {
  name : string;
  abstract : bool;
  superclass : list string;
  constructors : list MethodInfo.t;
  methods : list MethodInfo.t;
  static_methods : list MethodInfo.t;
  operators : list MethodInfo.t;
  fields : list FieldInfo.t;
  enums : list EnumInfo.t;
}.
End ClassInfo.

(** Modelled from the spec: the class [ClassTemplateInfo], a class with type
    parameters (kind, name, default). *)
Module ClassTemplateInfo.
Record t := mk {
  cls : ClassInfo.t;
  type_params : list (string * string * option string);
}.
Definition name (tmpl : t) : string := ClassInfo.name (cls tmpl).
End ClassTemplateInfo.

(** Modelled from the spec: the class [ModuleInfo]. *)
Module ModuleInfo.
Record t := mk {
  name : string;
  headers : list string;
  dependencies_headers : list string;
  namespaces : list string;
  classes : list ClassInfo.t;
  class_templates : list ClassTemplateInfo.t;
  typedefs : list TypedefInfo.t;
  enums : list EnumInfo.t;
  functions : list FunctionInfo.t;
  operators : list FunctionInfo.t;
}.
End ModuleInfo.

(** ** The serialisers *)

Definition VOpt (o : option string) : value :=
  match o with Some s => VStr s | None => VNone end.

(** [[(name, typ) for name, typ, _ in args]] *)
Definition args_without_defaults (args : list arg) : list (string * string) :=
  (fun a : arg => let '(name, typ, _) := a in (name, typ)) <$> args.

Definition VPair (p : string * string) : value := VTuple [VStr p.1; VStr p.2].

Definition serialize_function (func : FunctionInfo.t) : dict :=
  [ ("name", VStr (FunctionInfo.name func));
    ("return_type", VOpt (FunctionInfo.return_type func));
    ("args", VList (VPair <$> args_without_defaults (FunctionInfo.args func)));
    ("inline", VBool (FunctionInfo.inline func));
    ("namespace", VStr (FunctionInfo.namespace func)) ].

Definition serialize_method (method : MethodInfo.t) : dict :=
  [ ("name", VStr (MethodInfo.name method));
    ("return_type", VOpt (MethodInfo.return_type method));
    ("args", VList (VPair <$> args_without_defaults (MethodInfo.args method)));
    ("const", VBool (MethodInfo.const method));
    ("virtual", VBool (MethodInfo.virtual method));
    ("pure_virtual", VBool (MethodInfo.pure_virtual method));
    ("inline", VBool (MethodInfo.inline method)) ].

Definition serialize_field (field : FieldInfo.t) : dict :=
  [ ("name", VStr (FieldInfo.name field));
    ("type", VStr (FieldInfo.type field));
    ("const", VBool (FieldInfo.const field));
    ("pod", VBool (FieldInfo.pod field)) ].

Definition VEnumValue (p : string * Z) : value := VTuple [VStr p.1; VInt p.2].

Definition serialize_enum (enum : EnumInfo.t) : dict :=
  [ ("name", VStr (EnumInfo.name enum));
    ("values", VList (VEnumValue <$> EnumInfo.values enum));
    ("anonymous", VBool (EnumInfo.anonymous enum)) ].

Definition serialize_typedef (typedef : TypedefInfo.t) : dict :=
  let result :=
    [ ("name", VStr (TypedefInfo.name typedef));
      ("type", VStr (TypedefInfo.type typedef));
      ("pod", VBool (TypedefInfo.pod typedef)) ] in
  let result :=
    match TypedefInfo.template_base typedef with
    | Some (String c s) => setitem "template_base" (VStr (String c s)) result
    | _ => result
    end in
  let result :=
    match TypedefInfo.template_args typedef with
    | Some (a :: l) => setitem "template_args" (VList (VStr <$> (a :: l))) result
    | _ => result
    end in
  result.

(** [[typ for _, typ, _ in c.args]] *)
Definition arg_types (c : MethodInfo.t) : list string :=
  (fun a : arg => let '(_, typ, _) := a in typ) <$> MethodInfo.args c.

(** The entry [{'arg_types': [...]}] of a constructor and its [str]. *)
Definition constructor_signature (c : MethodInfo.t) : list string := arg_types c.

Definition VSignature (sig : list string) : value :=
  VDict [("arg_types", VList (VStr <$> sig))].

Definition str_signature `{Unicode} (sig : list string) : string :=
  "{'arg_types': " +:+ str_list sig +:+ "}".

Definition serialize_class `{Unicode} (cls : ClassInfo.t) : dict :=
  let result :=
    [ ("name", VStr (ClassInfo.name cls));
      ("abstract", VBool (ClassInfo.abstract cls));
      ("superclass", VList (VStr <$> sorted id (ClassInfo.superclass cls)));
      ("counts", VOrderedDict
         [ ("constructors", VInt (len (ClassInfo.constructors cls)));
           ("methods", VInt (len (ClassInfo.methods cls)));
           ("static_methods", VInt (len (ClassInfo.static_methods cls)));
           ("operators", VInt (len (ClassInfo.operators cls)));
           ("fields", VInt (len (ClassInfo.fields cls)));
           ("enums", VInt (len (ClassInfo.enums cls))) ]) ] in
  let result :=
    if truthy (ClassInfo.fields cls)
    then setitem "fields"
           (VList ((fun f => VDict (serialize_field f))
                   <$> sorted FieldInfo.name (ClassInfo.fields cls))) result
    else result in
  let result :=
    if truthy (ClassInfo.enums cls)
    then setitem "enums"
           (VList ((fun e => VDict (serialize_enum e))
                   <$> sorted EnumInfo.name (ClassInfo.enums cls))) result
    else result in
  let result :=
    if truthy (ClassInfo.constructors cls)
    then setitem "constructor_signatures"
           (VList (VSignature
                   <$> sorted str_signature
                         (constructor_signature <$> ClassInfo.constructors cls)))
           result
    else result in
  let result :=
    if truthy (ClassInfo.methods cls)
    then setitem "method_names"
           (VList (VStr <$> sorted id (MethodInfo.name <$> ClassInfo.methods cls)))
           result
    else result in
  let result :=
    if truthy (ClassInfo.static_methods cls)
    then setitem "static_method_names"
           (VList (VStr <$> sorted id
                              (MethodInfo.name <$> ClassInfo.static_methods cls)))
           result
    else result in
  let result :=
    if truthy (ClassInfo.operators cls)
    then setitem "operator_names"
           (VList (VStr <$> sorted id (MethodInfo.name <$> ClassInfo.operators cls)))
           result
    else result in
  result.

Definition VTypeParam (p : string * string * option string) : value :=
  let '(typ, name, default) := p in
  VDict [("type", VStr typ); ("name", VStr name); ("default", VOpt default)].

Definition serialize_class_template `{Unicode} (cls_tmpl : ClassTemplateInfo.t) : dict :=
  let result := serialize_class (ClassTemplateInfo.cls cls_tmpl) in
  setitem "type_params"
    (VList (VTypeParam <$> ClassTemplateInfo.type_params cls_tmpl)) result.

(** The entry [{'name': f.name, 'arg_count': len(f.args)}] of a function. *)
Definition name_and_arg_count (f : FunctionInfo.t) : string * Z :=
  (FunctionInfo.name f, len (FunctionInfo.args f)).

Definition VNameCount (p : string * Z) : value :=
  VDict [("name", VStr p.1); ("arg_count", VInt p.2)].

Definition serialize_module `{Unicode} (module : ModuleInfo.t) : dict :=
  let result :=
    [ ("name", VStr (ModuleInfo.name module));
      ("dependencies",
        VList (VStr <$> sorted id (ModuleInfo.dependencies_headers module)));
      ("namespaces", VList (VStr <$> sorted id (ModuleInfo.namespaces module)));
      ("counts", VOrderedDict
         [ ("headers", VInt (len (ModuleInfo.headers module)));
           ("classes", VInt (len (ModuleInfo.classes module)));
           ("class_templates", VInt (len (ModuleInfo.class_templates module)));
           ("typedefs", VInt (len (ModuleInfo.typedefs module)));
           ("enums", VInt (len (ModuleInfo.enums module)));
           ("functions", VInt (len (ModuleInfo.functions module)));
           ("operators", VInt (len (ModuleInfo.operators module))) ]) ] in
  let result :=
    if truthy (ModuleInfo.classes module)
    then setitem "classes"
           (VOrderedDict (OrderedDict
              ((fun cls => (ClassInfo.name cls, VOrderedDict (serialize_class cls)))
               <$> sorted ClassInfo.name (ModuleInfo.classes module)))) result
    else result in
  let result :=
    if truthy (ModuleInfo.class_templates module)
    then setitem "class_templates"
           (VOrderedDict (OrderedDict
              ((fun tmpl => (ClassTemplateInfo.name tmpl,
                             VOrderedDict (serialize_class_template tmpl)))
               <$> sorted ClassTemplateInfo.name
                     (ModuleInfo.class_templates module)))) result
    else result in
  let result :=
    if truthy (ModuleInfo.typedefs module)
    then setitem "typedefs"
           (VList ((fun t => VDict (serialize_typedef t))
                   <$> sorted TypedefInfo.name (ModuleInfo.typedefs module)))
           result
    else result in
  let result :=
    if truthy (ModuleInfo.enums module)
    then setitem "enums"
           (VList ((fun e => VDict (serialize_enum e))
                   <$> sorted EnumInfo.name (ModuleInfo.enums module))) result
    else result in
  let result :=
    if truthy (ModuleInfo.functions module)
    then setitem "function_names"
           (VList (VNameCount
                   <$> sorted id (name_and_arg_count <$> ModuleInfo.functions module)))
           result
    else result in
  let result :=
    if truthy (ModuleInfo.operators module)
    then setitem "operator_names"
           (VList (VNameCount
                   <$> sorted id (name_and_arg_count <$> ModuleInfo.operators module)))
           result
    else result in
  result.

(** ** The process: files, standard output, exit status *)

(** [pathlib.Path]: a root and the components that are neither empty nor a
    single dot. *)
Record path := { root : string; parts : list string }.

Fixpoint split_slash (s : string) : list string :=
  match s with
  | EmptyString => [EmptyString]
  | String c s' =>
      if bool_decide (c = "/"%char) then EmptyString :: split_slash s'
      else match split_slash s' with
           | h :: t => String c h :: t
           | [] => [char c]
           end
  end.

Definition is_component (s : string) : bool :=
  negb (bool_decide (s = EmptyString) || bool_decide (s = ".")).

(** A leading slash is the root; exactly two leading slashes are kept. *)
Definition path_root (s : string) : string :=
  match s with
  | String "/" (String "/" (String "/" _)) => "/"
  | String "/" (String "/" _) => "//"
  | String "/" _ => "/"
  | _ => EmptyString
  end.

Definition Path (s : string) : path :=
  {| root := path_root s;
     parts := filter (fun c => is_component c = true) (split_slash s) |}.

Definition path_str (p : path) : string :=
  match root p, parts p with
  | EmptyString, [] => "."
  | r, ps => r +:+ String.concat "/" ps
  end.

(** [p.with_name(name)]; a path without a final component has no name to
    replace ([ValueError]). *)
Definition with_name (p : path) (name : string) : option path :=
  match reverse (parts p) with
  | [] => None
  | _ :: rev_parent => Some {| root := root p; parts := reverse rev_parent ++ [name] |}
  end.

Inductive event : Type :=
| Stdout (text : string)
| PathExists (p : string)
| OpenRead (p : string)
| OpenWrite (p : string).

(** The files (by path, with their contents) and what the process has done
    so far. *)
Record world := { files : gmap string string; trace : list event }.

Inductive exn : Type :=
| SystemExit (code : Z)
| ValueError
| OSError
| UnpicklingError
| YAMLError.

(** What the environment decides: how a file's bytes unpickle, whether a
    path can be opened for writing, and the text [yaml.dump] writes for a
    value together with whether it ran to the end. *)
Record libs := {
  pickle_load : string -> option (list ModuleInfo.t);
  writable : string -> bool;
  yaml_dump : value -> string * bool;
}.

Definition M (A : Type) : Type := world -> (exn + A) * world.

#[export] Instance M_ret : MRet M := fun A a w => (inr a, w).
#[export] Instance M_bind : MBind M := fun A B k m w =>
  match m w with
  | (inr a, w') => k a w'
  | (inl e, w') => (inl e, w')
  end.

Definition raise {A} (e : exn) : M A := fun w => (inl e, w).

Definition emit (ev : event) : M unit := fun w =>
  (inr tt, {| files := files w; trace := trace w ++ [ev] |}).

Definition print (text : string) : M unit := emit (Stdout text).

Definition get_files : M (gmap string string) := fun w => (inr (files w), w).

Definition set_file (p text : string) : M unit := fun w =>
  (inr tt, {| files := <[p := text]> (files w); trace := trace w |}).

(** [p.exists()] *)
Definition path_exists (p : path) : M bool :=
  emit (PathExists (path_str p));;
  fs ← get_files;
  mret (bool_decide (is_Some (fs !! path_str p))).

Section program.
Context `{Unicode} (env : libs).

(** [with open(p, 'rb') as f: pickle.load(f)] *)
Definition load_pickle (p : path) : M (list ModuleInfo.t) :=
  emit (OpenRead (path_str p));;
  fs ← get_files;
  match fs !! path_str p with
  | None => raise OSError
  | Some bytes =>
      match pickle_load env bytes with
      | Some modules => mret modules
      | None => raise UnpicklingError
      end
  end.

(** [with open(p, 'w') as f: yaml.dump(v, f, ...)]: opening creates the
    file or empties it, and the text written before a failure stays. *)
Definition write_yaml (p : path) (v : value) : M unit :=
  emit (OpenWrite (path_str p));;
  if writable env (path_str p) then
    set_file (path_str p) EmptyString;;
    let '(text, finished) := yaml_dump env v in
    set_file (path_str p) text;;
    if finished then mret tt else raise YAMLError
  else raise OSError.

(** [sum(len(f(m)) for m in modules)] *)
Definition total {A} (f : ModuleInfo.t -> list A) (modules : list ModuleInfo.t) : Z :=
  fold_left Z.add ((fun m => len (f m)) <$> modules) 0.

Definition summary (modules : list ModuleInfo.t) : dict :=
  [ ("total_modules", VInt (len modules));
    ("total_classes", VInt (total ModuleInfo.classes modules));
    ("total_class_templates", VInt (total ModuleInfo.class_templates modules));
    ("total_typedefs", VInt (total ModuleInfo.typedefs modules));
    ("total_enums", VInt (total ModuleInfo.enums modules));
    ("total_functions", VInt (total ModuleInfo.functions modules)) ].

Definition serialized_modules (modules : list ModuleInfo.t) : dict :=
  OrderedDict
    ((fun module => (ModuleInfo.name module, VOrderedDict (serialize_module module)))
     <$> sorted ModuleInfo.name modules).

(** The structure handed to [yaml.dump]. *)
Definition output (modules : list ModuleInfo.t) : dict :=
  [ ("summary", VOrderedDict (summary modules));
    ("modules", VOrderedDict (serialized_modules modules)) ].

Definition newline : string := char (ascii_of_N 10).

Definition dump_parsed_pkl (pkl_path output_path : path) : M unit :=
  print ("Loading " +:+ path_str pkl_path +:+ "...");;
  modules ← load_pickle pkl_path;
  print ("Found " +:+ pretty (len modules) +:+ " modules");;
  print "Serializing modules...";;
  print ("Writing to " +:+ path_str output_path +:+ "...");;
  write_yaml output_path (VOrderedDict (output modules));;
  print "Done!";;
  print (newline +:+ "Summary:");;
  print ("  Modules: " +:+ pretty (len modules));;
  print ("  Classes: " +:+ pretty (total ModuleInfo.classes modules));;
  print ("  Class Templates: " +:+ pretty (total ModuleInfo.class_templates modules));;
  print ("  Typedefs: " +:+ pretty (total ModuleInfo.typedefs modules));;
  print ("  Enums: " +:+ pretty (total ModuleInfo.enums modules));;
  print ("  Functions: " +:+ pretty (total ModuleInfo.functions modules)).

Definition usage : list string :=
  [ "Usage: python dump_parsed.py <parsed_output.pkl> [output.yml]";
    newline +:+ "Example:";
    "  python dump_parsed.py parsed_output.pkl parsed_dump.yml" ].

Definition main (argv : list string) : M unit :=
  match argv with
  | [] | [_] =>
      print "Usage: python dump_parsed.py <parsed_output.pkl> [output.yml]";;
      print (newline +:+ "Example:");;
      print "  python dump_parsed.py parsed_output.pkl parsed_dump.yml";;
      raise (SystemExit 1)
  | _ :: argv1 :: rest =>
      let pkl_path := Path argv1 in
      found ← path_exists pkl_path;
      if negb found then
        print ("Error: File not found: " +:+ path_str pkl_path);;
        raise (SystemExit 1)
      else
        output_path ←
          match rest with
          | argv2 :: _ => mret (Path argv2)
          | [] =>
              match with_name pkl_path "parsed_dump.yml" with
              | Some p => mret p
              | None => raise ValueError
              end
          end;
        dump_parsed_pkl pkl_path output_path
  end.

(** The exit status of the interpreter: 0 after a normal return, the code
    given to [sys.exit], and 1 after any other uncaught exception. *)
Definition exit_status (r : exn + unit) : Z :=
  match r with
  | inr _ => 0
  | inl (SystemExit code) => code
  | inl _ => 1
  end.

(** Running the script: the exit status and the final state. *)
Definition run (argv : list string) (w : world) : Z * world :=
  let '(r, w') := main argv w in (exit_status r, w').

End program.

(** ** Notions used in the properties *)

(** The count stored under [k] in the ['counts'] block of [d]. *)
Definition count_of (k : string) (d : dict) : option value :=
  match getitem "counts" d with
  | Some (VOrderedDict counts) => getitem k counts
  | _ => None
  end.

(** Non-strict and strict order of names, and the order of
    (name, argument count) pairs. *)
Definition str_le (a b : string) : Prop := String.ltb b a = false.
Definition str_lt (a b : string) : Prop := String.ltb a b = true.

(** Two lists hold the same entities: one is a rearrangement of the other,
    up to [R] on the entities themselves. *)
Definition same_entities {A} (R : relation A) (l1 l2 : list A) : Prop :=
  exists l, l1 ≡ₚ l /\ Forall2 R l l2.

Definition same_class (c1 c2 : ClassInfo.t) : Prop :=
  ClassInfo.name c1 = ClassInfo.name c2 /\
  ClassInfo.abstract c1 = ClassInfo.abstract c2 /\
  ClassInfo.superclass c1 ≡ₚ ClassInfo.superclass c2 /\
  ClassInfo.constructors c1 = ClassInfo.constructors c2 /\
  ClassInfo.methods c1 = ClassInfo.methods c2 /\
  ClassInfo.static_methods c1 = ClassInfo.static_methods c2 /\
  ClassInfo.operators c1 = ClassInfo.operators c2 /\
  ClassInfo.fields c1 ≡ₚ ClassInfo.fields c2 /\
  ClassInfo.enums c1 ≡ₚ ClassInfo.enums c2.

Definition same_template (t1 t2 : ClassTemplateInfo.t) : Prop :=
  same_class (ClassTemplateInfo.cls t1) (ClassTemplateInfo.cls t2) /\
  ClassTemplateInfo.type_params t1 = ClassTemplateInfo.type_params t2.

Definition same_module (m1 m2 : ModuleInfo.t) : Prop :=
  ModuleInfo.name m1 = ModuleInfo.name m2 /\
  ModuleInfo.headers m1 ≡ₚ ModuleInfo.headers m2 /\
  ModuleInfo.dependencies_headers m1 ≡ₚ ModuleInfo.dependencies_headers m2 /\
  ModuleInfo.namespaces m1 ≡ₚ ModuleInfo.namespaces m2 /\
  same_entities same_class (ModuleInfo.classes m1) (ModuleInfo.classes m2) /\
  same_entities same_template
    (ModuleInfo.class_templates m1) (ModuleInfo.class_templates m2) /\
  ModuleInfo.typedefs m1 = ModuleInfo.typedefs m2 /\
  ModuleInfo.enums m1 ≡ₚ ModuleInfo.enums m2 /\
  ModuleInfo.functions m1 = ModuleInfo.functions m2 /\
  ModuleInfo.operators m1 = ModuleInfo.operators m2.

Definition same_snapshot (ms1 ms2 : list ModuleInfo.t) : Prop :=
  same_entities same_module ms1 ms2.

(** Names are unique within each parent collection. *)
Definition unique_class (c : ClassInfo.t) : Prop :=
  NoDup (FieldInfo.name <$> ClassInfo.fields c) /\
  NoDup (EnumInfo.name <$> ClassInfo.enums c).

Definition unique_module (m : ModuleInfo.t) : Prop :=
  NoDup (ClassInfo.name <$> ModuleInfo.classes m) /\
  Forall unique_class (ModuleInfo.classes m) /\
  NoDup (ClassTemplateInfo.name <$> ModuleInfo.class_templates m) /\
  Forall (fun t => unique_class (ClassTemplateInfo.cls t))
    (ModuleInfo.class_templates m) /\
  NoDup (EnumInfo.name <$> ModuleInfo.enums m).

Definition unique_snapshot (ms : list ModuleInfo.t) : Prop :=
  NoDup (ModuleInfo.name <$> ms) /\ Forall unique_module ms.

(** Two argument lists differ in default values only. *)
Definition same_args_but_defaults (a1 a2 : list arg) : Prop :=
  Forall2 (fun x y : arg => x.1 = y.1) a1 a2.

(** The laws of [<] on the keys that are compared. *)
Class PyOrdLaws (K : Type) `{PyOrd K} := {
  py_lt_irrefl : forall a : K, py_lt a a = false;
  py_lt_trans : forall a b c : K,
    py_lt a b = true -> py_lt b c = true -> py_lt a c = true;
  py_lt_total : forall a b : K, py_lt a b = false -> py_lt b a = false -> a = b;
}.

(** The six collections of a class: [d] has no key for an empty one. *)
Definition class_empty_omitted (cls : ClassInfo.t) (d : dict) : Prop :=
  (ClassInfo.fields cls = [] -> getitem "fields" d = None) /\
  (ClassInfo.enums cls = [] -> getitem "enums" d = None) /\
  (ClassInfo.constructors cls = [] -> getitem "constructor_signatures" d = None) /\
  (ClassInfo.methods cls = [] -> getitem "method_names" d = None) /\
  (ClassInfo.static_methods cls = [] -> getitem "static_method_names" d = None) /\
  (ClassInfo.operators cls = [] -> getitem "operator_names" d = None).



(** Order of the constructor entries: by their [str]. *)
Definition signature_le `{Unicode} (a b : list string) : Prop :=
  str_le (str_signature a) (str_signature b).

(** Two functions, or two methods, differ in default values only. *)
Definition same_function_but_defaults (f1 f2 : FunctionInfo.t) : Prop :=
  FunctionInfo.name f1 = FunctionInfo.name f2 /\
  FunctionInfo.return_type f1 = FunctionInfo.return_type f2 /\
  same_args_but_defaults (FunctionInfo.args f1) (FunctionInfo.args f2) /\
  FunctionInfo.inline f1 = FunctionInfo.inline f2 /\
  FunctionInfo.namespace f1 = FunctionInfo.namespace f2.

Definition same_method_but_defaults (m1 m2 : MethodInfo.t) : Prop :=
  MethodInfo.name m1 = MethodInfo.name m2 /\
  MethodInfo.return_type m1 = MethodInfo.return_type m2 /\
  same_args_but_defaults (MethodInfo.args m1) (MethodInfo.args m2) /\
  MethodInfo.const m1 = MethodInfo.const m2 /\
  MethodInfo.virtual m1 = MethodInfo.virtual m2 /\
  MethodInfo.pure_virtual m1 = MethodInfo.pure_virtual m2 /\
  MethodInfo.inline m1 = MethodInfo.inline m2.

(** [cls] with other constructors. *)
Definition with_constructors (cls : ClassInfo.t) (ctors : list MethodInfo.t) :
    ClassInfo.t :=
  ClassInfo.mk (ClassInfo.name cls) (ClassInfo.abstract cls)
    (ClassInfo.superclass cls) ctors (ClassInfo.methods cls)
    (ClassInfo.static_methods cls) (ClassInfo.operators cls)
    (ClassInfo.fields cls) (ClassInfo.enums cls).

(** ** The detail of a constructor in the words of the specification *)

(** The detail of a constructor that follows the specification's words: the
    name, the (argument name, argument type) pairs without the default
    values, and the flags. *)
Definition spec_constructor_detail (c : MethodInfo.t) : dict :=
  [ ("name", VStr (MethodInfo.name c));
    ("args", VList (VPair <$> args_without_defaults (MethodInfo.args c)));
    ("const", VBool (MethodInfo.const c));
    ("virtual", VBool (MethodInfo.virtual c));
    ("pure_virtual", VBool (MethodInfo.pure_virtual c));
    ("inline", VBool (MethodInfo.inline c)) ].

(** ** Sample metadata *)

Definition ctor_xy : MethodInfo.t :=
  MethodInfo.mk "Widget" None
    [("x", "double", None); ("y", "double", Some "0.0")] false false false false.

(** [ctor_xy] with other argument names. *)
Definition ctor_uv : MethodInfo.t :=
  MethodInfo.mk "Widget" None
    [("u", "double", None); ("v", "double", Some "0.0")] false false false false.

(** [ctor_xy] with other default values. *)
Definition ctor_xy_defaults : MethodInfo.t :=
  MethodInfo.mk "Widget" None
    [("x", "double", Some "1.0"); ("y", "double", None)] false false false false.

Definition ctor_copy : MethodInfo.t :=
  MethodInfo.mk "Widget" None [("other", "const Widget &", None)]
    false false false true.

Definition method_draw : MethodInfo.t :=
  MethodInfo.mk "draw" (Some "void") [("scale", "double", Some "1.0")] true true false false.

Definition method_draw_defaults : MethodInfo.t :=
  MethodInfo.mk "draw" (Some "void") [("scale", "double", Some "2.0")] true true false false.

Definition method_resize : MethodInfo.t :=
  MethodInfo.mk "resize" (Some "void") [("w", "int", None); ("h", "int", None)]
    false false false false.

Definition field_width : FieldInfo.t := FieldInfo.mk "width" "int" false true.
Definition field_height : FieldInfo.t := FieldInfo.mk "height" "int" false true.

Definition enum_color : EnumInfo.t :=
  EnumInfo.mk "Color" [("Red", 0); ("Green", 1)] false.


Definition enum_shape : EnumInfo.t :=
  EnumInfo.mk "Shape" [("Round", 0); ("Square", 1)] false.

Definition class_widget : ClassInfo.t :=
  ClassInfo.mk "Widget" false ["Object"; "Base"] [ctor_xy; ctor_copy]
    [method_resize; method_draw] [] [] [field_width; field_height]
    [enum_shape; enum_color].

(** [class_widget] with its fields, enums and superclasses in another
    order. *)
Definition class_widget_reordered : ClassInfo.t :=
  ClassInfo.mk "Widget" false ["Base"; "Object"] [ctor_xy; ctor_copy]
    [method_resize; method_draw] [] [] [field_height; field_width]
    [enum_color; enum_shape].

(** A class with one constructor and nothing else. *)
Definition class_point (c : MethodInfo.t) : ClassInfo.t :=
  ClassInfo.mk "Widget" false [] [c] [] [] [] [] [].

(** A class with one field and nothing else. *)
Definition class_cell : ClassInfo.t :=
  ClassInfo.mk "Cell" false [] [] [] [] [] [field_width] [].

Definition class_base : ClassInfo.t :=
  ClassInfo.mk "Base" true [] [] [] [] [] [] [].

Definition template_array : ClassTemplateInfo.t :=
  ClassTemplateInfo.mk
    (ClassInfo.mk "Array" false [] [] [] [] [] [] [])
    [("typename", "T", None); ("int", "N", Some "3")].

Definition function_scale (default : option string) : FunctionInfo.t :=
  FunctionInfo.mk "scale" (Some "double") [("factor", "double", default)] true "core".

Definition function_scale2 : FunctionInfo.t :=
  FunctionInfo.mk "scale" (Some "double") [("fx", "double", None); ("fy", "double", None)]
    false "core".

Definition function_area : FunctionInfo.t :=
  FunctionInfo.mk "area" (Some "double") [] false "core".

Definition typedef_plain : TypedefInfo.t :=
  TypedefInfo.mk "Real" "double" true None (Some []).

Definition module_core : ModuleInfo.t :=
  ModuleInfo.mk "Core" ["Widget.hxx"; "Base.hxx"] ["Standard.hxx"] ["core"]
    [class_widget; class_base] [template_array] [typedef_plain]
    [enum_shape; enum_color] [function_scale2; function_scale None; function_area] [].

(** [module_core] with its classes and enums in another order. *)
Definition module_core_reordered : ModuleInfo.t :=
  ModuleInfo.mk "Core" ["Widget.hxx"; "Base.hxx"] ["Standard.hxx"] ["core"]
    [class_base; class_widget_reordered] [template_array] [typedef_plain]
    [enum_color; enum_shape] [function_scale2; function_scale None; function_area] [].

Definition module_aux : ModuleInfo.t :=
  ModuleInfo.mk "Aux" [] [] [] [] [] [] [] [] [].

(** The scenario of the specification: a module [Core] with one class
    [Widget], not abstract, with superclass [Base], the methods [draw] and
    [resize] and no fields. *)
Definition class_scenario : ClassInfo.t :=
  ClassInfo.mk "Widget" false ["Base"] [] [method_resize; method_draw] [] [] [] [].

Definition module_scenario : ModuleInfo.t :=
  ModuleInfo.mk "Core" [] [] [] [class_scenario] [] [] [] [] [].

(** Two snapshots with the same entities in different orders. *)
Definition snapshot_a : list ModuleInfo.t := [module_core; module_aux].
Definition snapshot_b : list ModuleInfo.t := [module_aux; module_core_reordered].

(** An environment in which the snapshot unpickles and [yaml.dump] stops
    after the first line, one in which the snapshot does not unpickle, and a
    file system that holds the snapshot only. *)
Definition env_dump_fails : libs :=
  {| pickle_load := fun _ => Some snapshot_a;
     writable := fun _ => true;
     yaml_dump := fun _ => ("summary:", false) |}.


Definition world_snapshot_only : world :=
  {| files := {[ "out/parsed_output.pkl" := "snapshot" ]}; trace := [] |}.

Definition argv_snapshot : list string := ["dump_parsed.py"; "out/parsed_output.pkl"].
Definition argv_missing : list string := ["dump_parsed.py"; "missing.pkl"].
Definition argv_none : list string := ["dump_parsed.py"].

(** ** Notions used in the further properties *)

(** The key of a collection, when the collection is not empty. *)
Definition key_if_any {A} (l : list A) (k : string) : list string :=
  if truthy l then [k] else [].

(** The last element of [l] named [n]. *)
Definition last_named {A} (name : A -> string) (n : string) (l : list A) : option A :=
  last (filter (fun x => name x = n) l).

(** Where the dump goes: the second path argument, or the file
    [parsed_dump.yml] beside the snapshot. *)
Definition destination (argv : list string) : option path :=
  match argv with
  | _ :: _ :: argv2 :: _ => Some (Path argv2)
  | [_; argv1] => with_name (Path argv1) "parsed_dump.yml"
  | _ => None
  end.

(** The sum, over the serialised modules [d], of the count stored under
    [k]. *)
Definition sum_counts (k : string) (d : dict) : Z :=
  fold_left Z.add
    ((fun kv : string * value =>
        match kv.2 with
        | VOrderedDict m =>
            match count_of k m with Some (VInt n) => n | _ => 0 end
        | _ => 0
        end) <$> d) 0.

(** What a complete run prints before and after writing. *)
Definition progress_before (pkl_path output_path : path) (modules : list ModuleInfo.t) :
    list event :=
  [ PathExists (path_str pkl_path);
    Stdout ("Loading " +:+ path_str pkl_path +:+ "...");
    OpenRead (path_str pkl_path);
    Stdout ("Found " +:+ pretty (len modules) +:+ " modules");
    Stdout "Serializing modules...";
    Stdout ("Writing to " +:+ path_str output_path +:+ "...");
    OpenWrite (path_str output_path) ].

Definition progress_after (modules : list ModuleInfo.t) : list event :=
  [ Stdout "Done!";
    Stdout (newline +:+ "Summary:");
    Stdout ("  Modules: " +:+ pretty (len modules));
    Stdout ("  Classes: " +:+ pretty (total ModuleInfo.classes modules));
    Stdout ("  Class Templates: " +:+ pretty (total ModuleInfo.class_templates modules));
    Stdout ("  Typedefs: " +:+ pretty (total ModuleInfo.typedefs modules));
    Stdout ("  Enums: " +:+ pretty (total ModuleInfo.enums modules));
    Stdout ("  Functions: " +:+ pretty (total ModuleInfo.functions modules)) ].

(** An environment in which the snapshot unpickles and the dump is written
    to the end. *)
Definition env_fine : libs :=
  {| pickle_load := fun _ => Some snapshot_a;
     writable := fun _ => true;
     yaml_dump := fun _ => ("summary: ...", true) |}.







Definition typedef_vector : TypedefInfo.t :=
  TypedefInfo.mk "Points" "Array<gp_Pnt>" false (Some "Array") (Some ["gp_Pnt"]).






(** The no-break space U+00A0, the letter U+00E9 and the zero-width space
    U+200B, as UTF-8 bytes. *)
Definition nbsp : string := String (ascii_of_N 194) (char (ascii_of_N 160)).
Definition e_acute : string := String (ascii_of_N 195) (char (ascii_of_N 169)).
Definition zwsp : string :=
  String (ascii_of_N 226) (String (ascii_of_N 128) (char (ascii_of_N 139))).

(** Text that is ASCII throughout. *)
Definition ascii_text (s : string) : Prop :=
  Forall (fun c => (N_of_ascii c < 128)%N) (String.list_ascii_of_string s).

(** A class whose three constructors take one argument each, of the types
    [z], U+00A0 and [e]. *)
Definition ctor_of (typ : string) : MethodInfo.t :=
  MethodInfo.mk "Widget" None [("a", typ, None)] false false false false.

Definition class_three : ClassInfo.t :=
  ClassInfo.mk "Widget" false [] [ctor_of "z"; ctor_of nbsp; ctor_of "e"]
    [] [] [] [] [].

(** * Properties *)

(** ** The order on keys *)

Lemma string_ltb_compare (a b : string) :
  String.ltb a b = true <-> String.compare a b = Lt.
Proof. unfold String.ltb. destruct (String.compare a b); split; congruence. Qed.

Lemma string_compare_refl (a : string) : String.compare a a = Eq.
Proof.
  induction a as [|c a IH]; simpl; [done|].
  unfold Ascii.compare. by rewrite N.compare_refl.
Qed.

Lemma string_compare_lt_trans (a b c : string) :
  String.compare a b = Lt -> String.compare b c = Lt -> String.compare a c = Lt.
Proof.
  revert b c. induction a as [|x a IH]; intros [|y b] [|z c]; simpl; try done.
  destruct (Ascii.compare x y) eqn:Hxy; try done.
  - apply Ascii.compare_eq_iff in Hxy as ->.
    destruct (Ascii.compare y z); try done. apply IH.
  - destruct (Ascii.compare y z) eqn:Hyz; try done.
    + apply Ascii.compare_eq_iff in Hyz as ->. by rewrite Hxy.
    + intros _ _. replace (Ascii.compare x z) with Lt; [done|].
      symmetry. unfold Ascii.compare in *.
      apply N.compare_lt_iff. etrans; by apply N.compare_lt_iff.
Qed.

#[export] Instance string_pyord_laws : PyOrdLaws string.
Proof.
  split; unfold py_lt, string_pyord.
  - intros a. unfold String.ltb. by rewrite string_compare_refl.
  - intros a b c. rewrite !string_ltb_compare. apply string_compare_lt_trans.
  - intros a b. unfold String.ltb. rewrite (String.compare_antisym b a).
    destruct (String.compare a b) eqn:E; simpl; try done.
    intros _ _. by apply String.compare_eq_iff.
Qed.

#[export] Instance Z_pyord_laws : PyOrdLaws Z.
Proof.
  split; unfold py_lt, Z_pyord.
  - intros a. apply Z.ltb_irrefl.
  - intros a b c. rewrite !Z.ltb_lt. lia.
  - intros a b. rewrite !Z.ltb_ge. lia.
Qed.

Lemma pair_lt_unfold `{EqDecision A, PyOrd A, PyOrd B} (a1 a2 : A) (b1 b2 : B) :
  py_lt (a1, b1) (a2, b2) = if decide (a1 = a2) then py_lt b1 b2 else py_lt a1 a2.
Proof. reflexivity. Qed.

#[export] Instance pair_pyord_laws `{EqDecision A, PyOrdLaws A, PyOrdLaws B} :
  PyOrdLaws (A * B).
Proof.
  split.
  - intros [a b]. rewrite pair_lt_unfold, decide_True by done. apply py_lt_irrefl.
  - intros [a1 b1] [a2 b2] [a3 b3]. rewrite !pair_lt_unfold.
    repeat case_decide; subst; try done.
    + apply py_lt_trans.
    + intros Hab Hba. exfalso.
      pose proof (py_lt_trans _ _ _ Hab Hba) as Haa.
      by rewrite py_lt_irrefl in Haa.
    + apply py_lt_trans.
  - intros [a1 b1] [a2 b2]. rewrite !pair_lt_unfold.
    repeat case_decide; subst; try done.
    + intros Hab Hba. f_equal. by apply py_lt_total.
    + intros Hab Hba. exfalso. eauto using py_lt_total.
Qed.

(** ** [sorted]: a stable sort *)

Section sorted_facts.
Context {A K : Type} `{PyOrdLaws K} (key : A -> K).

Lemma insert_by_perm (x : A) (l : list A) : insert_by key x l ≡ₚ x :: l.
Proof.
  induction l as [|y l IH]; simpl; [done|].
  destruct (py_lt (key y) (key x)); [|done].
  rewrite IH. apply perm_swap.
Qed.

Lemma sorted_perm (l : list A) : sorted key l ≡ₚ l.
Proof.
  induction l as [|x l IH]; simpl; [done|].
  rewrite insert_by_perm. by f_equiv.
Qed.

Lemma sorted_length (l : list A) : length (sorted key l) = length l.
Proof. apply Permutation_length, sorted_perm. Qed.

Lemma key_lt_le (a b : A) : key_lt key a b -> key_le key a b.
Proof.
  unfold key_lt, key_le. intros Hab.
  destruct (py_lt (key b) (key a)) eqn:Hba; [|done].
  pose proof (py_lt_trans _ _ _ Hab Hba) as Haa.
  by rewrite py_lt_irrefl in Haa.
Qed.

#[local] Instance key_le_trans : Transitive (key_le key).
Proof.
  unfold key_le. intros a b c Hab Hbc.
  destruct (py_lt (key c) (key a)) eqn:Hca; [|done].
  destruct (py_lt (key b) (key c)) eqn:Hcb.
  - pose proof (py_lt_trans _ _ _ Hcb Hca). congruence.
  - assert (key b = key c) as Heq by (by apply py_lt_total).
    rewrite Heq in Hab. congruence.
Qed.

Lemma key_le_antisym (a b : A) :
  key_le key a b -> key_le key b a -> key a = key b.
Proof. unfold key_le. intros. by apply py_lt_total. Qed.

Lemma insert_by_sorted (x : A) (l : list A) :
  StronglySorted (key_le key) l -> StronglySorted (key_le key) (insert_by key x l).
Proof.
  induction 1 as [|y l Hl IH Hy]; simpl.
  - repeat constructor.
  - destruct (py_lt (key y) (key x)) eqn:Hyx.
    + constructor; [done|]. rewrite insert_by_perm.
      constructor; [by apply key_lt_le|done].
    + constructor; [by constructor|].
      constructor; [done|].
      eapply Forall_impl; [exact Hy|]. intros z Hz. by etrans.
Qed.

Lemma sorted_sorted (l : list A) : StronglySorted (key_le key) (sorted key l).
Proof.
  induction l as [|x l IH]; simpl; [constructor|]. by apply insert_by_sorted.
Qed.

(** With unique keys the result depends on the elements only, not on the
    order they come in. *)
Lemma sorted_unique (l1 l2 : list A) :
  NoDup (key <$> l1) -> l1 ≡ₚ l2 -> sorted key l1 = sorted key l2.
Proof.
  intros Hnd Hperm.
  apply (StronglySorted_unique_strong (key_le key)); [|apply sorted_sorted..|].
  - intros x1 x2 Hx1 Hx2 H12 H21.
    rewrite sorted_perm in Hx1. rewrite sorted_perm, <-Hperm in Hx2.
    apply list_elem_of_lookup in Hx1 as [i Hi], Hx2 as [j Hj].
    assert (i = j) as ->.
    { eapply NoDup_lookup; [exact Hnd|..]; rewrite list_lookup_fmap.
      - by rewrite Hi.
      - rewrite Hj. simpl. f_equal. symmetry. by apply key_le_antisym. }
    congruence.
  - by rewrite !sorted_perm.
Qed.

(** With unique keys the order is strict. *)
Lemma sorted_strict (l : list A) :
  NoDup (key <$> l) -> StronglySorted (key_lt key) (sorted key l).
Proof.
  intros Hnd. rewrite <-(sorted_perm l) in Hnd.
  pose proof (sorted_sorted l) as Hs.
  induction Hs as [|x s Hs IH Hx]; [constructor|].
  rewrite fmap_cons in Hnd. apply NoDup_cons in Hnd as [Hx' Hnd].
  constructor; [by apply IH|].
  apply Forall_forall. intros y Hy.
  rewrite Forall_forall in Hx. specialize (Hx y Hy).
  unfold key_lt, key_le in *.
  destruct (py_lt (key x) (key y)) eqn:Hxy; [done|].
  exfalso. apply Hx'. rewrite (py_lt_total _ _ Hxy Hx).
  by apply list_elem_of_fmap_2.
Qed.

End sorted_facts.

(** Sorting values by themselves does not depend on the order they come in,
    whether or not a value occurs twice. *)
Lemma sorted_id_perm `{PyOrdLaws K} (l1 l2 : list K) :
  l1 ≡ₚ l2 -> sorted id l1 = sorted id l2.
Proof.
  intros Hperm.
  apply (StronglySorted_unique_strong (key_le id)); [|apply sorted_sorted..|].
  - intros x1 x2 _ _. apply (key_le_antisym id).
  - by rewrite !sorted_perm.
Qed.

(** Entities related by [R], which keeps the key, are sorted alike. *)
Lemma sorted_Forall2 {A B K : Type} `{PyOrd K}
    (R : A -> B -> Prop) (key : A -> K) (key' : B -> K) (l1 : list A) (l2 : list B) :
  (forall x y, R x y -> key x = key' y) ->
  Forall2 R l1 l2 -> Forall2 R (sorted key l1) (sorted key' l2).
Proof.
  intros HR. induction 1 as [|x y l1 l2 Hxy Hl IH]; simpl; [constructor|].
  clear Hl. induction IH as [|x' y' s1 s2 Hxy' Hs IH]; simpl.
  - by repeat constructor.
  - rewrite (HR _ _ Hxy), (HR _ _ Hxy').
    destruct (py_lt (key' y') (key' y)); by repeat constructor.
Qed.

(** ** Dictionaries *)

Lemma getitem_setitem (k k' : string) (v : value) (d : dict) :
  getitem k (setitem k' v d) = if String.eqb k' k then Some v else getitem k d.
Proof.
  induction d as [|[k0 v0] d IH]; simpl.
  - done.
  - destruct (String.eqb k0 k') eqn:E0; simpl.
    + apply String.eqb_eq in E0 as ->. by destruct (String.eqb k' k).
    + rewrite IH. destruct (String.eqb k0 k) eqn:E1; [|done].
      apply String.eqb_eq in E1 as ->. by rewrite String.eqb_sym, E0.
Qed.

Lemma getitem_None (k : string) (d : dict) : getitem k d = None <-> k ∉ keys d.
Proof.
  unfold keys. induction d as [|[k0 v0] d IH]; simpl.
  - split; [intros _; apply not_elem_of_nil|done].
  - rewrite not_elem_of_cons, <-IH. destruct (String.eqb k0 k) eqn:E.
    + apply String.eqb_eq in E as ->. split; [done|]. by intros [? _].
    + apply String.eqb_neq in E. split; [by intros|by intros [_ ?]].
Qed.

Lemma setitem_fresh (k : string) (v : value) (d : dict) :
  k ∉ keys d -> setitem k v d = d ++ [(k, v)].
Proof.
  unfold keys. induction d as [|[k0 v0] d IH]; simpl; [done|].
  rewrite not_elem_of_cons. intros [Hne Hk].
  destruct (String.eqb k0 k) eqn:E.
  - apply String.eqb_eq in E. congruence.
  - by rewrite IH.
Qed.

Lemma keys_setitem_present (k : string) (v : value) (d : dict) :
  k ∈ keys d -> keys (setitem k v d) = keys d.
Proof.
  unfold keys. induction d as [|[k0 v0] d IH]; simpl.
  - by intros ?%elem_of_nil.
  - destruct (String.eqb k0 k) eqn:E; [done|].
    apply String.eqb_neq in E. rewrite elem_of_cons.
    intros [?|?]; [congruence|]. rewrite !fmap_cons. f_equal. by apply IH.
Qed.

Lemma fold_setitem_fresh (pairs d : dict) :
  NoDup (keys d ++ keys pairs) ->
  fold_left (fun d kv => setitem kv.1 kv.2 d) pairs d = d ++ pairs.
Proof.
  revert d. induction pairs as [|[k v] pairs IH]; intros d Hnd; simpl.
  - by rewrite app_nil_r.
  - unfold keys in *. rewrite fmap_cons in Hnd. simpl in Hnd.
    rewrite setitem_fresh.
    + rewrite IH; [by rewrite <-app_assoc|].
      unfold keys. rewrite fmap_app, <-app_assoc. done.
    + apply NoDup_app in Hnd as (_ & Hd & _). intros Hk.
      apply (Hd k Hk). by left.
Qed.

(** With pairwise different keys, [OrderedDict] keeps all the pairs. *)
Lemma OrderedDict_NoDup (pairs : dict) :
  NoDup (keys pairs) -> OrderedDict pairs = pairs.
Proof. intros Hnd. unfold OrderedDict. by rewrite fold_setitem_fresh. Qed.

Lemma str_le_neq_lt (a b : string) : str_le a b -> a <> b -> str_lt a b.
Proof.
  unfold str_le, str_lt. intros Hba Hne.
  destruct (String.ltb a b) eqn:Hab; [done|].
  destruct Hne. by apply (py_lt_total (K:=string)).
Qed.

Lemma fold_setitem_sorted (pairs d : dict) :
  StronglySorted str_lt (keys d) ->
  (forall k k', k ∈ keys d -> k' ∈ keys pairs -> str_le k k') ->
  StronglySorted str_le (keys pairs) ->
  StronglySorted str_lt
    (keys (fold_left (fun d kv => setitem kv.1 kv.2 d) pairs d)).
Proof.
  revert d. induction pairs as [|[k v] pairs IH]; intros d Hd Hle Hp; simpl.
  - done.
  - unfold keys in Hp, Hle. rewrite fmap_cons in Hp, Hle. simpl in Hp, Hle.
    apply StronglySorted_cons in Hp as [Hk Hp]. rewrite Forall_forall in Hk.
    destruct (decide (k ∈ keys d)) as [Hin|Hnin].
    + apply IH; [by rewrite keys_setitem_present| |done].
      rewrite keys_setitem_present by done.
      intros k1 k2 Hk1 Hk2. apply Hle; [done|by right].
    + rewrite setitem_fresh by done. apply IH; [| |done].
      * unfold keys. rewrite fmap_app. apply StronglySorted_app_2; [|done|].
        -- intros k1 k2 Hk1 ->%list_elem_of_singleton.
           apply str_le_neq_lt; [apply Hle; [done|by left]|].
           intros ->. done.
        -- repeat constructor.
      * unfold keys. intros k1 k2. rewrite fmap_app, elem_of_app.
        intros [Hk1| ->%list_elem_of_singleton] Hk2.
        -- apply Hle; [done|by right].
        -- by apply Hk.
Qed.

(** Keys that come in order end up in strict order: a repeated key is
    inserted once. *)
Lemma OrderedDict_sorted (pairs : dict) :
  StronglySorted str_le (keys pairs) ->
  StronglySorted str_lt (keys (OrderedDict pairs)).
Proof.
  intros Hp. apply fold_setitem_sorted; [constructor| |done].
  by intros k k' ?%elem_of_nil.
Qed.

Lemma sorted_names_le {A} (name : A -> string) (l : list A) :
  StronglySorted str_le (name <$> sorted name l).
Proof.
  apply (StronglySorted_fmap _ (key_le name)); [done|].
  apply (sorted_sorted name).
Qed.

Lemma keys_named {A} (name : A -> string) (f : A -> value) (l : list A) :
  keys ((fun x => (name x, f x)) <$> l) = name <$> l.
Proof. unfold keys. rewrite <-list_fmap_compose. done. Qed.

(** ** Properties for every Unicode table *)

Section properties.
Context {unicode : Unicode}.

(** ** Reading the serialised class and module *)

Lemma getitem_cond (k k' : string) (v : value) (b : bool) (d : dict) :
  getitem k (if b then setitem k' v d else d)
  = if String.eqb k' k then (if b then Some v else getitem k d) else getitem k d.
Proof. destruct b; rewrite ?getitem_setitem; by destruct (String.eqb k' k). Qed.

Ltac solve_getitem :=
  intros; unfold count_of, serialize_class_template, serialize_class,
    serialize_module;
  cbv zeta; rewrite ?getitem_setitem, ?getitem_cond; reflexivity.

Section class_items.
Context (cls : ClassInfo.t).


Lemma class_superclass :
  getitem "superclass" (serialize_class cls)
  = Some (VList (VStr <$> sorted id (ClassInfo.superclass cls))).
Proof. solve_getitem. Qed.

Lemma class_fields :
  getitem "fields" (serialize_class cls)
  = if truthy (ClassInfo.fields cls)
    then Some (VList ((fun f => VDict (serialize_field f))
                      <$> sorted FieldInfo.name (ClassInfo.fields cls)))
    else None.
Proof. solve_getitem. Qed.

Lemma class_enums :
  getitem "enums" (serialize_class cls)
  = if truthy (ClassInfo.enums cls)
    then Some (VList ((fun e => VDict (serialize_enum e))
                      <$> sorted EnumInfo.name (ClassInfo.enums cls)))
    else None.
Proof. solve_getitem. Qed.

Lemma class_constructor_signatures :
  getitem "constructor_signatures" (serialize_class cls)
  = if truthy (ClassInfo.constructors cls)
    then Some (VList (VSignature
                      <$> sorted str_signature
                            (constructor_signature <$> ClassInfo.constructors cls)))
    else None.
Proof. solve_getitem. Qed.

Lemma class_method_names :
  getitem "method_names" (serialize_class cls)
  = if truthy (ClassInfo.methods cls)
    then Some (VList (VStr <$> sorted id (MethodInfo.name <$> ClassInfo.methods cls)))
    else None.
Proof. solve_getitem. Qed.

Lemma class_static_method_names :
  getitem "static_method_names" (serialize_class cls)
  = if truthy (ClassInfo.static_methods cls)
    then Some (VList (VStr <$> sorted id
                                 (MethodInfo.name <$> ClassInfo.static_methods cls)))
    else None.
Proof. solve_getitem. Qed.

Lemma class_operator_names :
  getitem "operator_names" (serialize_class cls)
  = if truthy (ClassInfo.operators cls)
    then Some (VList (VStr <$> sorted id
                                 (MethodInfo.name <$> ClassInfo.operators cls)))
    else None.
Proof. solve_getitem. Qed.

End class_items.

Lemma template_type_params (tmpl : ClassTemplateInfo.t) :
  getitem "type_params" (serialize_class_template tmpl)
  = Some (VList (VTypeParam <$> ClassTemplateInfo.type_params tmpl)).
Proof. solve_getitem. Qed.

(** Adding ['type_params'] leaves the other entries of the class as they
    are. *)
Lemma template_getitem (tmpl : ClassTemplateInfo.t) (k : string) :
  k <> "type_params" ->
  getitem k (serialize_class_template tmpl)
  = getitem k (serialize_class (ClassTemplateInfo.cls tmpl)).
Proof.
  intros Hk. unfold serialize_class_template. rewrite getitem_setitem.
  destruct (String.eqb "type_params" k) eqn:E; [|done].
  apply String.eqb_eq in E. congruence.
Qed.

Section module_items.
Context (module : ModuleInfo.t).

Lemma module_counts :
  count_of "headers" (serialize_module module)
    = Some (VInt (len (ModuleInfo.headers module))) /\
  count_of "classes" (serialize_module module)
    = Some (VInt (len (ModuleInfo.classes module))) /\
  count_of "class_templates" (serialize_module module)
    = Some (VInt (len (ModuleInfo.class_templates module))) /\
  count_of "typedefs" (serialize_module module)
    = Some (VInt (len (ModuleInfo.typedefs module))) /\
  count_of "enums" (serialize_module module)
    = Some (VInt (len (ModuleInfo.enums module))) /\
  count_of "functions" (serialize_module module)
    = Some (VInt (len (ModuleInfo.functions module))) /\
  count_of "operators" (serialize_module module)
    = Some (VInt (len (ModuleInfo.operators module))).
Proof. repeat split; solve_getitem. Qed.

Lemma module_classes :
  getitem "classes" (serialize_module module)
  = if truthy (ModuleInfo.classes module)
    then Some (VOrderedDict (OrderedDict
           ((fun cls => (ClassInfo.name cls, VOrderedDict (serialize_class cls)))
            <$> sorted ClassInfo.name (ModuleInfo.classes module))))
    else None.
Proof. solve_getitem. Qed.

Lemma module_class_templates :
  getitem "class_templates" (serialize_module module)
  = if truthy (ModuleInfo.class_templates module)
    then Some (VOrderedDict (OrderedDict
           ((fun tmpl => (ClassTemplateInfo.name tmpl,
                          VOrderedDict (serialize_class_template tmpl)))
            <$> sorted ClassTemplateInfo.name (ModuleInfo.class_templates module))))
    else None.
Proof. solve_getitem. Qed.

Lemma module_typedefs :
  getitem "typedefs" (serialize_module module)
  = if truthy (ModuleInfo.typedefs module)
    then Some (VList ((fun t => VDict (serialize_typedef t))
                      <$> sorted TypedefInfo.name (ModuleInfo.typedefs module)))
    else None.
Proof. solve_getitem. Qed.

Lemma module_enums :
  getitem "enums" (serialize_module module)
  = if truthy (ModuleInfo.enums module)
    then Some (VList ((fun e => VDict (serialize_enum e))
                      <$> sorted EnumInfo.name (ModuleInfo.enums module)))
    else None.
Proof. solve_getitem. Qed.

Lemma module_function_names :
  getitem "function_names" (serialize_module module)
  = if truthy (ModuleInfo.functions module)
    then Some (VList (VNameCount
                      <$> sorted id (name_and_arg_count <$> ModuleInfo.functions module)))
    else None.
Proof. solve_getitem. Qed.

Lemma module_operator_names :
  getitem "operator_names" (serialize_module module)
  = if truthy (ModuleInfo.operators module)
    then Some (VList (VNameCount
                      <$> sorted id (name_and_arg_count <$> ModuleInfo.operators module)))
    else None.
Proof. solve_getitem. Qed.


End module_items.

(** ** Empty collections *)

Lemma truthy_nil_false {A} (l : list A) : l = [] -> truthy l = false.
Proof. by intros ->. Qed.

Ltac absent_by lem :=
  let E := fresh in
  intros E%truthy_nil_false; rewrite lem, ?E; first [reflexivity | by rewrite E].

Lemma len_fmap_sorted {A B K} `{PyOrdLaws K} (f : A -> B) (key : A -> K) (l : list A) :
  len (f <$> sorted key l) = len l.
Proof. unfold len. by rewrite length_fmap, sorted_length. Qed.

Lemma class_empty_omitted_serialize (cls : ClassInfo.t) :
  class_empty_omitted cls (serialize_class cls).
Proof.
  unfold class_empty_omitted. split_and!.
  - absent_by class_fields.
  - absent_by class_enums.
  - absent_by class_constructor_signatures.
  - absent_by class_method_names.
  - absent_by class_static_method_names.
  - absent_by class_operator_names.
Qed.

(** C2. An empty collection of a class, of a class template or of a module
    leaves no key for it in the serialised entity, and a typedef without
    template arguments has no ['template_args'] key.  A class without fields
    has no ['fields'] key; a class with one field has a ['fields'] list of
    length one, holding that field. *)
Theorem empty_collections_omitted
    (cls : ClassInfo.t) (tmpl : ClassTemplateInfo.t) (module : ModuleInfo.t)
    (typedef : TypedefInfo.t) (field : FieldInfo.t) :
  class_empty_omitted cls (serialize_class cls) /\
  class_empty_omitted (ClassTemplateInfo.cls tmpl) (serialize_class_template tmpl) /\
  ((ModuleInfo.classes module = [] ->
      getitem "classes" (serialize_module module) = None) /\
   (ModuleInfo.class_templates module = [] ->
      getitem "class_templates" (serialize_module module) = None) /\
   (ModuleInfo.typedefs module = [] ->
      getitem "typedefs" (serialize_module module) = None) /\
   (ModuleInfo.enums module = [] ->
      getitem "enums" (serialize_module module) = None) /\
   (ModuleInfo.functions module = [] ->
      getitem "function_names" (serialize_module module) = None) /\
   (ModuleInfo.operators module = [] ->
      getitem "operator_names" (serialize_module module) = None)) /\
  (TypedefInfo.template_args typedef = Some [] \/
   TypedefInfo.template_args typedef = None ->
     getitem "template_args" (serialize_typedef typedef) = None) /\
  (ClassInfo.fields cls = [] -> getitem "fields" (serialize_class cls) = None) /\
  (ClassInfo.fields cls = [field] ->
     exists l, getitem "fields" (serialize_class cls) = Some (VList l) /\
               l = [VDict (serialize_field field)] /\ length l = 1%nat).
Proof.
  split_and!.
  - apply class_empty_omitted_serialize.
  - pose proof (class_empty_omitted_serialize (ClassTemplateInfo.cls tmpl)) as Hc.
    unfold class_empty_omitted in *.
    by rewrite !template_getitem.
  - absent_by module_classes.
  - absent_by module_class_templates.
  - absent_by module_typedefs.
  - absent_by module_enums.
  - absent_by module_function_names.
  - absent_by module_operator_names.
  - intros [E|E]; unfold serialize_typedef; rewrite E;
      by destruct (TypedefInfo.template_base typedef) as [[|]|].
  - apply class_empty_omitted_serialize.
  - intros E. rewrite class_fields, E. simpl. eauto.
Qed.

(** ** Counts and details *)





Lemma len_OrderedDict_named {A} (name : A -> string) (f : A -> value) (l : list A) :
  NoDup (name <$> l) ->
  len (OrderedDict ((fun x => (name x, f x)) <$> sorted name l)) = len l.
Proof.
  intros Hnd. rewrite OrderedDict_NoDup.
  - apply (len_fmap_sorted _ name).
  - rewrite keys_named. by rewrite (sorted_perm name).
Qed.


(** ** Order of the emitted entries *)



(** C4. The keys of the ['classes'] mapping of a module (and of its
    ['class_templates'] mapping) are in strictly increasing order; the
    ['superclass'] list of a class is a sorted rearrangement of the stored
    one; the ['type_params'] of a class template are emitted one by one in
    the stored order. *)
Theorem sort_correctness
    (module : ModuleInfo.t) (cls : ClassInfo.t) (tmpl : ClassTemplateInfo.t) :
  (forall v, getitem "classes" (serialize_module module) = Some v ->
     exists d, v = VOrderedDict d /\ StronglySorted str_lt (keys d)) /\
  (forall v, getitem "class_templates" (serialize_module module) = Some v ->
     exists d, v = VOrderedDict d /\ StronglySorted str_lt (keys d)) /\
  (exists l, getitem "superclass" (serialize_class cls) = Some (VList (VStr <$> l)) /\
     StronglySorted str_le l /\ l ≡ₚ ClassInfo.superclass cls) /\
  (exists l, getitem "type_params" (serialize_class_template tmpl) = Some (VList l) /\
     length l = length (ClassTemplateInfo.type_params tmpl) /\
     forall i p, ClassTemplateInfo.type_params tmpl !! i = Some p ->
                 l !! i = Some (VTypeParam p)).
Proof.
  split_and!.
  - intros v. rewrite module_classes. destruct (truthy _); [|done].
    intros [= <-]. eexists. split; [done|].
    apply OrderedDict_sorted. rewrite keys_named. apply sorted_names_le.
  - intros v. rewrite module_class_templates. destruct (truthy _); [|done].
    intros [= <-]. eexists. split; [done|].
    apply OrderedDict_sorted. rewrite keys_named. apply sorted_names_le.
  - eexists. split; [apply class_superclass|]. split.
    + apply (sorted_sorted id).
    + apply (sorted_perm id).
  - eexists. split; [apply template_type_params|]. split.
    + by rewrite length_fmap.
    + intros i p Hp. by rewrite list_lookup_fmap, Hp.
Qed.


(** ** Constructors *)

(** C7, amended. A class with constructors has a ['constructor_signatures']
    list with one entry per constructor; the entry holds the argument types
    only, in the order of the arguments, and the entries are ordered by their
    [str]. *)
Theorem constructor_signatures_emitted (cls : ClassInfo.t) :
  ClassInfo.constructors cls <> [] ->
  exists sigs,
    getitem "constructor_signatures" (serialize_class cls)
      = Some (VList ((fun sig => VDict [("arg_types", VList (VStr <$> sig))]) <$> sigs)) /\
    sigs ≡ₚ arg_types <$> ClassInfo.constructors cls /\
    StronglySorted signature_le sigs.
Proof.
  intros Hne.
  exists (sorted str_signature (constructor_signature <$> ClassInfo.constructors cls)).
  split_and!.
  - rewrite class_constructor_signatures.
    by destruct (ClassInfo.constructors cls).
  - apply (sorted_perm str_signature).
  - apply (sorted_sorted str_signature).
Qed.

(** ** Enum values *)

#[local] Instance VEnumValue_inj : Inj (=) (=) VEnumValue.
Proof. intros [a m] [b n]. unfold VEnumValue. simpl. congruence. Qed.

(** The serialised enum determines the enum. *)
Lemma serialize_enum_inj (e1 e2 : EnumInfo.t) :
  serialize_enum e1 = serialize_enum e2 -> e1 = e2.
Proof.
  destruct e1, e2. unfold serialize_enum. simpl. intros [= -> Hv ->].
  by apply (inj (fmap VEnumValue)) in Hv as ->.
Qed.


(** ** Default values *)

Lemma args_without_defaults_same (a1 a2 : list arg) :
  same_args_but_defaults a1 a2 -> args_without_defaults a1 = args_without_defaults a2.
Proof.
  unfold args_without_defaults.
  induction 1 as [|[[n1 t1] d1] [[n2 t2] d2] a1 a2 Hxy _ IH]; [done|].
  rewrite !fmap_cons, IH. simpl in Hxy. by inversion Hxy.
Qed.

Lemma arg_types_same (c1 c2 : MethodInfo.t) :
  same_args_but_defaults (MethodInfo.args c1) (MethodInfo.args c2) ->
  arg_types c1 = arg_types c2.
Proof.
  unfold arg_types.
  induction 1 as [|[[n1 t1] d1] [[n2 t2] d2] a1 a2 Hxy _ IH]; [done|].
  rewrite !fmap_cons, IH. simpl in Hxy. by inversion Hxy.
Qed.

(** C5. Two functions that differ in default values only are serialised
    alike, and so are two methods; a class whose constructors are replaced by
    constructors that differ from them in default values only is serialised as
    before. *)
Theorem default_values_excluded
    (f1 f2 : FunctionInfo.t) (m1 m2 : MethodInfo.t)
    (cls : ClassInfo.t) (ctors : list MethodInfo.t) :
  (same_function_but_defaults f1 f2 -> serialize_function f1 = serialize_function f2) /\
  (same_method_but_defaults m1 m2 -> serialize_method m1 = serialize_method m2) /\
  (Forall2 same_method_but_defaults (ClassInfo.constructors cls) ctors ->
     serialize_class (with_constructors cls ctors) = serialize_class cls).
Proof.
  split_and!.
  - intros (Hn & Hr & Ha & Hi & Hs). unfold serialize_function.
    by rewrite Hn, Hr, Hi, Hs, (args_without_defaults_same _ _ Ha).
  - intros (Hn & Hr & Ha & Hc & Hv & Hp & Hi). unfold serialize_method.
    by rewrite Hn, Hr, Hc, Hv, Hp, Hi, (args_without_defaults_same _ _ Ha).
  - intros Hctors. unfold serialize_class, with_constructors. simpl.
    assert (constructor_signature <$> ctors
            = constructor_signature <$> ClassInfo.constructors cls) as ->.
    { induction Hctors as [|c c' l l' Hc _ IH]; [done|].
      rewrite !fmap_cons, IH. f_equal. symmetry. apply arg_types_same, Hc. }
    assert (len ctors = len (ClassInfo.constructors cls)) as ->.
    { unfold len. by rewrite (Forall2_length _ _ _ Hctors). }
    assert (truthy ctors = truthy (ClassInfo.constructors cls)) as ->.
    { by destruct Hctors. }
    done.
Qed.

(** ** Independence of the stored order *)

Lemma truthy_perm {A} (l1 l2 : list A) : l1 ≡ₚ l2 -> truthy l1 = truthy l2.
Proof. intros Hp. apply Permutation_length in Hp. by destruct l1, l2. Qed.

Lemma len_perm {A} (l1 l2 : list A) : l1 ≡ₚ l2 -> len l1 = len l2.
Proof. intros Hp. unfold len. by rewrite Hp. Qed.

Lemma same_entities_length {A} (R : relation A) (l1 l2 : list A) :
  same_entities R l1 l2 -> length l1 = length l2.
Proof.
  intros (l & Hp & HR). rewrite Hp. by eapply Forall2_length.
Qed.

Lemma same_entities_len {A} (R : relation A) (l1 l2 : list A) :
  same_entities R l1 l2 -> len l1 = len l2.
Proof. intros HR. unfold len. by rewrite (same_entities_length _ _ _ HR). Qed.

Lemma same_entities_truthy {A} (R : relation A) (l1 l2 : list A) :
  same_entities R l1 l2 -> truthy l1 = truthy l2.
Proof. intros HR%same_entities_length. by destruct l1, l2. Qed.

(** Entities with unique names that are serialised alike one by one are
    serialised alike as a sorted collection. *)
Lemma fmap_sorted_same {A B} (R : relation A) (P : A -> Prop)
    (name : A -> string) (f : A -> B) (l1 l2 : list A) :
  (forall x y, R x y -> name x = name y) ->
  (forall x y, P x -> R x y -> f x = f y) ->
  NoDup (name <$> l1) -> Forall P l1 -> same_entities R l1 l2 ->
  f <$> sorted name l1 = f <$> sorted name l2.
Proof.
  intros Hname Hf Hnd HP (l & Hperm & HR).
  rewrite (sorted_unique name l1 l) by done.
  assert (Forall P (sorted name l)) as HPs.
  { by rewrite (sorted_perm name), <-Hperm. }
  pose proof (sorted_Forall2 R name name l l2 Hname HR) as HRs.
  clear -Hf HPs HRs.
  induction HRs as [|x y s1 s2 Hxy _ IH]; [done|].
  apply Forall_cons in HPs as [Hx HPs].
  rewrite !fmap_cons. f_equal; [by apply Hf|by apply IH].
Qed.

Lemma fmap_sorted_perm {A B} (name : A -> string) (f : A -> B) (l1 l2 : list A) :
  NoDup (name <$> l1) -> l1 ≡ₚ l2 -> f <$> sorted name l1 = f <$> sorted name l2.
Proof. intros Hnd Hp. by rewrite (sorted_unique name l1 l2). Qed.

Lemma serialize_class_same (c1 c2 : ClassInfo.t) :
  unique_class c1 -> same_class c1 c2 -> serialize_class c1 = serialize_class c2.
Proof.
  intros [Hf He] (Hn & Ha & Hs & Hc & Hm & Hsm & Ho & Hfs & Hes).
  unfold serialize_class.
  rewrite Hn, Ha, (sorted_id_perm _ _ Hs), Hc, Hm, Hsm, Ho.
  rewrite (len_perm _ _ Hfs), (len_perm _ _ Hes).
  rewrite (truthy_perm _ _ Hfs), (truthy_perm _ _ Hes).
  rewrite (fmap_sorted_perm FieldInfo.name _ _ _ Hf Hfs).
  rewrite (fmap_sorted_perm EnumInfo.name _ _ _ He Hes).
  done.
Qed.

Lemma serialize_class_template_same (t1 t2 : ClassTemplateInfo.t) :
  unique_class (ClassTemplateInfo.cls t1) -> same_template t1 t2 ->
  serialize_class_template t1 = serialize_class_template t2.
Proof.
  intros Hu [Hc Hp]. unfold serialize_class_template.
  by rewrite Hp, (serialize_class_same _ _ Hu Hc).
Qed.

Lemma same_class_name (c1 c2 : ClassInfo.t) :
  same_class c1 c2 -> ClassInfo.name c1 = ClassInfo.name c2.
Proof. by intros [? _]. Qed.

Lemma same_template_name (t1 t2 : ClassTemplateInfo.t) :
  same_template t1 t2 -> ClassTemplateInfo.name t1 = ClassTemplateInfo.name t2.
Proof. intros [Hc _]. by apply same_class_name. Qed.

Lemma serialize_module_same (m1 m2 : ModuleInfo.t) :
  unique_module m1 -> same_module m1 m2 -> serialize_module m1 = serialize_module m2.
Proof.
  intros (Hc & Hcu & Ht & Htu & He)
         (Hn & Hh & Hd & Hns & Hcs & Hts & Htd & Hes & Hfs & Hos).
  unfold serialize_module.
  rewrite Hn, (sorted_id_perm _ _ Hd), (sorted_id_perm _ _ Hns), Htd, Hfs, Hos.
  rewrite (len_perm _ _ Hh), (len_perm _ _ Hes).
  rewrite (same_entities_len _ _ _ Hcs), (same_entities_len _ _ _ Hts).
  rewrite (same_entities_truthy _ _ _ Hcs), (same_entities_truthy _ _ _ Hts).
  rewrite (truthy_perm _ _ Hes).
  rewrite (fmap_sorted_perm EnumInfo.name _ _ _ He Hes).
  rewrite (fmap_sorted_same same_class unique_class ClassInfo.name
             (fun cls => (ClassInfo.name cls, VOrderedDict (serialize_class cls)))
             _ _ same_class_name) by
    (try done; intros x y Hx Hxy;
     by rewrite (same_class_name _ _ Hxy), (serialize_class_same _ _ Hx Hxy)).
  rewrite (fmap_sorted_same same_template
             (fun t => unique_class (ClassTemplateInfo.cls t)) ClassTemplateInfo.name
             (fun tmpl => (ClassTemplateInfo.name tmpl,
                           VOrderedDict (serialize_class_template tmpl)))
             _ _ same_template_name) by
    (try done; intros x y Hx Hxy;
     by rewrite (same_template_name _ _ Hxy),
                (serialize_class_template_same _ _ Hx Hxy)).
  done.
Qed.

Lemma fold_left_add_perm (l1 l2 : list Z) (a : Z) :
  l1 ≡ₚ l2 -> fold_left Z.add l1 a = fold_left Z.add l2 a.
Proof.
  intros Hp. revert a.
  induction Hp as [|x l1 l2 _ IH|x y l|l1 l2 l3 _ IH1 _ IH2]; intros a; simpl.
  - done.
  - apply IH.
  - f_equal. lia.
  - by rewrite IH1.
Qed.

Lemma total_same {A} (f : ModuleInfo.t -> list A) (ms1 ms2 : list ModuleInfo.t) :
  (forall m1 m2, same_module m1 m2 -> len (f m1) = len (f m2)) ->
  same_snapshot ms1 ms2 -> total f ms1 = total f ms2.
Proof.
  intros Hf (l & Hp & HR). unfold total.
  rewrite (fold_left_add_perm _ ((fun m => len (f m)) <$> l)) by by rewrite Hp.
  f_equal. clear Hp. induction HR as [|x y s1 s2 Hxy _ IH]; [done|].
  rewrite !fmap_cons. f_equal; [by apply Hf|done].
Qed.

Lemma same_module_name (m1 m2 : ModuleInfo.t) :
  same_module m1 m2 -> ModuleInfo.name m1 = ModuleInfo.name m2.
Proof. by intros [? _]. Qed.

(** C1. Two snapshots with the same modules, classes, class templates,
    enums and fields in different orders (and the header, namespace and
    superclass names in different orders), with names unique within each
    collection, give the same structure to write: the same summary and the
    same serialised modules. *)
Theorem order_independence (ms1 ms2 : list ModuleInfo.t) :
  unique_snapshot ms1 -> same_snapshot ms1 ms2 ->
  serialized_modules ms1 = serialized_modules ms2 /\
  output ms1 = output ms2.
Proof.
  intros [Hnd Hu] Hsame.
  assert (serialized_modules ms1 = serialized_modules ms2) as Hmods.
  { unfold serialized_modules. f_equal.
    apply (fmap_sorted_same same_module unique_module); try done.
    - apply same_module_name.
    - intros x y Hx Hxy.
      by rewrite (same_module_name _ _ Hxy), (serialize_module_same _ _ Hx Hxy). }
  split; [done|].
  unfold output, summary. rewrite Hmods.
  rewrite (same_entities_len _ _ _ Hsame).
  rewrite (total_same ModuleInfo.classes ms1 ms2),
          (total_same ModuleInfo.class_templates ms1 ms2),
          (total_same ModuleInfo.typedefs ms1 ms2),
          (total_same ModuleInfo.enums ms1 ms2),
          (total_same ModuleInfo.functions ms1 ms2); try done.
  - by intros m1 m2 (_ & _ & _ & _ & _ & _ & _ & _ & -> & _).
  - intros m1 m2 (_ & _ & _ & _ & _ & _ & _ & He & _). by apply len_perm.
  - by intros m1 m2 (_ & _ & _ & _ & _ & _ & -> & _).
  - intros m1 m2 (_ & _ & _ & _ & _ & Ht & _). by eapply same_entities_len.
  - intros m1 m2 (_ & _ & _ & _ & Hc & _). by eapply same_entities_len.
Qed.

(** ** Failing runs *)

Ltac run_main :=
  unfold path_exists, dump_parsed_pkl, load_pickle, write_yaml, print, emit,
    get_files, set_file, raise, mbind, M_bind, mret, M_ret; simpl.


(** ** Usage and missing snapshot *)

(** C9. Without a path argument the run prints the usage text and ends with
    status 1; nothing else happens: no file is looked up, opened or changed.
    With the path of a snapshot that does not exist the run ends with status
    1 after looking the path up and printing the error; no file is opened and
    none is created or changed. *)
Theorem usage_and_missing_snapshot (env : libs) (w : world) :
  (forall argv, (length argv < 2)%nat ->
     run env argv w
     = (1, {| files := files w; trace := trace w ++ (Stdout <$> usage) |})) /\
  (forall prog p rest, files w !! path_str (Path p) = None ->
     run env (prog :: p :: rest) w
     = (1, {| files := files w;
              trace := trace w ++
                [ PathExists (path_str (Path p));
                  Stdout ("Error: File not found: " +:+ path_str (Path p)) ] |})).
Proof.
  split.
  - intros argv Hlen. unfold run, main.
    destruct argv as [|prog [|p rest]]; [| |simpl in Hlen; lia];
      run_main; by rewrite <-!app_assoc.
  - intros prog p rest Hnone. unfold run, main. run_main.
    rewrite Hnone. simpl. by rewrite <-!app_assoc.
Qed.

(** * Further properties *)

(** ** The keys of the serialised entities *)

Ltac solve_keys :=
  unfold key_if_any;
  repeat match goal with
         | |- context [truthy ?l] => destruct (truthy l)
         end;
  cbv zeta;
  cbn [keys fmap list_fmap setitem String.eqb Ascii.eqb Bool.eqb fst app];
  reflexivity.

Lemma class_keys (cls : ClassInfo.t) :
  keys (serialize_class cls)
  = ["name"; "abstract"; "superclass"; "counts"]
    ++ key_if_any (ClassInfo.fields cls) "fields"
    ++ key_if_any (ClassInfo.enums cls) "enums"
    ++ key_if_any (ClassInfo.constructors cls) "constructor_signatures"
    ++ key_if_any (ClassInfo.methods cls) "method_names"
    ++ key_if_any (ClassInfo.static_methods cls) "static_method_names"
    ++ key_if_any (ClassInfo.operators cls) "operator_names".
Proof. unfold serialize_class. solve_keys. Qed.

(** X1. The keys of a serialised class come in a fixed order: the four
    entries of the view, then one key for each collection that is not empty,
    in the order fields, enums, constructors, methods, static methods,
    operators. *)
Theorem serialize_class_keys (cls : ClassInfo.t) :
  keys (serialize_class cls)
  = ["name"; "abstract"; "superclass"; "counts"]
    ++ key_if_any (ClassInfo.fields cls) "fields"
    ++ key_if_any (ClassInfo.enums cls) "enums"
    ++ key_if_any (ClassInfo.constructors cls) "constructor_signatures"
    ++ key_if_any (ClassInfo.methods cls) "method_names"
    ++ key_if_any (ClassInfo.static_methods cls) "static_method_names"
    ++ key_if_any (ClassInfo.operators cls) "operator_names".
Proof. apply class_keys. Qed.

(** X2. The keys of a serialised module come in a fixed order: name,
    dependencies, namespaces and counts, which are always there, then one key
    for each collection that is not empty, in the order classes, class
    templates, typedefs, enums, functions, operators. *)
Theorem serialize_module_keys (module : ModuleInfo.t) :
  keys (serialize_module module)
  = ["name"; "dependencies"; "namespaces"; "counts"]
    ++ key_if_any (ModuleInfo.classes module) "classes"
    ++ key_if_any (ModuleInfo.class_templates module) "class_templates"
    ++ key_if_any (ModuleInfo.typedefs module) "typedefs"
    ++ key_if_any (ModuleInfo.enums module) "enums"
    ++ key_if_any (ModuleInfo.functions module) "function_names"
    ++ key_if_any (ModuleInfo.operators module) "operator_names".
Proof. unfold serialize_module. solve_keys. Qed.

(** X3. A serialised class template is the serialised class with one more
    entry at the end, ['type_params'], which is there even without type
    parameters; the entries of the class are unchanged. *)
Theorem serialize_class_template_extends (tmpl : ClassTemplateInfo.t) :
  serialize_class_template tmpl
  = serialize_class (ClassTemplateInfo.cls tmpl)
    ++ [("type_params", VList (VTypeParam <$> ClassTemplateInfo.type_params tmpl))].
Proof.
  unfold serialize_class_template. apply setitem_fresh.
  rewrite class_keys. unfold key_if_any.
  repeat match goal with
         | |- context [truthy ?l] => destruct (truthy l)
         end; compute_done.
Qed.

(** X4. A serialised typedef has ['template_base'] exactly when the
    typedef has a template base that is not the empty text, and
    ['template_args'] exactly when it has a template argument list that is not
    empty; its keys are name, type and pod followed by those two, in that
    order. *)
Theorem serialize_typedef_optional (typedef : TypedefInfo.t) :
  (forall v, getitem "template_base" (serialize_typedef typedef) = Some v <->
     exists s, TypedefInfo.template_base typedef = Some s /\
               s <> EmptyString /\ v = VStr s) /\
  (forall v, getitem "template_args" (serialize_typedef typedef) = Some v <->
     exists l, TypedefInfo.template_args typedef = Some l /\
               l <> [] /\ v = VList (VStr <$> l)) /\
  (exists opt, keys (serialize_typedef typedef) = ["name"; "type"; "pod"] ++ opt /\
     (opt = [] \/ opt = ["template_base"] \/ opt = ["template_args"] \/
      opt = ["template_base"; "template_args"])).
Proof.
  unfold serialize_typedef.
  destruct (TypedefInfo.template_base typedef) as [[|c s]|],
           (TypedefInfo.template_args typedef) as [[|a l]|]; simpl.
  all: split_and!;
    [ intros v; split; [try done; intros [= <-]; eauto | intros (? & [= <-] & ? & ->); done]
    | intros v; split; [try done; intros [= <-]; eauto | intros (? & [= <-] & ? & ->); done]
    | eexists; split; [reflexivity|]; auto ].
Qed.

(** ** Sorted lists: what is kept *)

Section sorted_more.
Context {A K : Type} `{PyOrdLaws K} (key : A -> K).

Lemma fmap_insert_by (x : A) (l : list A) :
  key <$> insert_by key x l = insert_by id (key x) (key <$> l).
Proof.
  induction l as [|y l IH]; [done|]. rewrite fmap_cons.
  cbn [insert_by]. unfold id at 1 2.
  destruct (py_lt (key y) (key x)); rewrite !fmap_cons; [|done].
  by rewrite IH.
Qed.

(** The keys of the sorted list are the sorted keys. *)
Lemma fmap_sorted (l : list A) : key <$> sorted key l = sorted id (key <$> l).
Proof.
  induction l as [|x l IH]; [done|]. rewrite fmap_cons. cbn [sorted foldr].
  rewrite fmap_insert_by. f_equal. apply IH.
Qed.

Context `{EqDecision K}.

Lemma filter_insert_by (k : K) (x : A) (l : list A) :
  filter (fun y => key y = k) (insert_by key x l)
  = filter (fun y => key y = k) (x :: l).
Proof.
  induction l as [|y l IH]; [done|]. cbn [insert_by].
  destruct (py_lt (key y) (key x)) eqn:Hyx; [|done].
  rewrite filter_cons, IH, !filter_cons.
  destruct (decide (key y = k)) as [Hy|Hy], (decide (key x = k)) as [Hx|Hx];
    try done.
  rewrite Hy, Hx, py_lt_irrefl in Hyx. done.
Qed.

(** Stability: the elements with a given key keep their order. *)
Lemma filter_sorted (k : K) (l : list A) :
  filter (fun y => key y = k) (sorted key l) = filter (fun y => key y = k) l.
Proof.
  induction l as [|x l IH]; [done|]. cbn [sorted foldr].
  rewrite filter_insert_by, !filter_cons. fold (sorted key l). by rewrite IH.
Qed.

End sorted_more.

(** [l'] holds the entities of [l], ordered by name, those of one name in
    the order they have in [l]. *)
Lemma sorted_by_name_spec {A} (name : A -> string) (l : list A) :
  sorted name l ≡ₚ l /\
  StronglySorted (fun a b => str_le (name a) (name b)) (sorted name l) /\
  forall n, filter (fun x => name x = n) (sorted name l)
            = filter (fun x => name x = n) l.
Proof.
  split_and!.
  - apply (sorted_perm name).
  - apply (sorted_sorted name).
  - intros n. apply (filter_sorted name).
Qed.

Lemma sorted_names_spec (l : list string) :
  sorted id l ≡ₚ l /\ StronglySorted str_le (sorted id l).
Proof. split; [apply (sorted_perm id)|apply (sorted_sorted id)]. Qed.

Lemma truthy_ne {A} (l : list A) : l <> [] -> truthy l = true.
Proof. by destruct l. Qed.

(** X5. A class with methods has a ['method_names'] list: the names of
    all its methods, one entry per method (an overloaded name is there once
    per overload), in sorted order.  The same holds for the static methods
    and the operators. *)
Theorem class_name_lists (cls : ClassInfo.t) :
  (ClassInfo.methods cls <> [] ->
     exists l, getitem "method_names" (serialize_class cls) = Some (VList (VStr <$> l)) /\
       l ≡ₚ MethodInfo.name <$> ClassInfo.methods cls /\ StronglySorted str_le l) /\
  (ClassInfo.static_methods cls <> [] ->
     exists l, getitem "static_method_names" (serialize_class cls)
               = Some (VList (VStr <$> l)) /\
       l ≡ₚ MethodInfo.name <$> ClassInfo.static_methods cls /\
       StronglySorted str_le l) /\
  (ClassInfo.operators cls <> [] ->
     exists l, getitem "operator_names" (serialize_class cls)
               = Some (VList (VStr <$> l)) /\
       l ≡ₚ MethodInfo.name <$> ClassInfo.operators cls /\ StronglySorted str_le l).
Proof.
  split_and!; intros Hne; eexists; (split; [|apply sorted_names_spec]).
  - by rewrite class_method_names, truthy_ne.
  - by rewrite class_static_method_names, truthy_ne.
  - by rewrite class_operator_names, truthy_ne.
Qed.

(** X6. The ['dependencies'] and ['namespaces'] of a serialised module are
    always there, also when empty: the stored header dependencies and the
    stored namespaces, each in sorted order with repeated names kept. *)
Theorem module_name_lists (module : ModuleInfo.t) :
  (exists l, getitem "dependencies" (serialize_module module)
             = Some (VList (VStr <$> l)) /\
     l ≡ₚ ModuleInfo.dependencies_headers module /\ StronglySorted str_le l) /\
  (exists l, getitem "namespaces" (serialize_module module)
             = Some (VList (VStr <$> l)) /\
     l ≡ₚ ModuleInfo.namespaces module /\ StronglySorted str_le l).
Proof.
  split; eexists; (split; [solve_getitem|apply sorted_names_spec]).
Qed.

(** X7. A class with fields has a ['fields'] list with the full record of
    every field, ordered by field name; fields of the same name keep the order
    in which they are stored.  The same holds for the enums of the class. *)
Theorem class_detail_lists (cls : ClassInfo.t) :
  (ClassInfo.fields cls <> [] ->
     exists l, getitem "fields" (serialize_class cls)
               = Some (VList ((fun f => VDict (serialize_field f)) <$> l)) /\
       l ≡ₚ ClassInfo.fields cls /\
       StronglySorted (fun a b => str_le (FieldInfo.name a) (FieldInfo.name b)) l /\
       forall n, filter (fun f => FieldInfo.name f = n) l
                 = filter (fun f => FieldInfo.name f = n) (ClassInfo.fields cls)) /\
  (ClassInfo.enums cls <> [] ->
     exists l, getitem "enums" (serialize_class cls)
               = Some (VList ((fun e => VDict (serialize_enum e)) <$> l)) /\
       l ≡ₚ ClassInfo.enums cls /\
       StronglySorted (fun a b => str_le (EnumInfo.name a) (EnumInfo.name b)) l /\
       forall n, filter (fun e => EnumInfo.name e = n) l
                 = filter (fun e => EnumInfo.name e = n) (ClassInfo.enums cls)).
Proof.
  split; intros Hne; eexists; (split; [|apply sorted_by_name_spec]).
  - by rewrite class_fields, truthy_ne.
  - by rewrite class_enums, truthy_ne.
Qed.

(** X8. A module with typedefs has a ['typedefs'] list with the serialised
    typedefs, ordered by name, those of one name in stored order; the same
    holds for the enums of the module. *)
Theorem module_detail_lists (module : ModuleInfo.t) :
  (ModuleInfo.typedefs module <> [] ->
     exists l, getitem "typedefs" (serialize_module module)
               = Some (VList ((fun t => VDict (serialize_typedef t)) <$> l)) /\
       l ≡ₚ ModuleInfo.typedefs module /\
       StronglySorted
         (fun a b => str_le (TypedefInfo.name a) (TypedefInfo.name b)) l /\
       forall n, filter (fun t => TypedefInfo.name t = n) l
                 = filter (fun t => TypedefInfo.name t = n) (ModuleInfo.typedefs module)) /\
  (ModuleInfo.enums module <> [] ->
     exists l, getitem "enums" (serialize_module module)
               = Some (VList ((fun e => VDict (serialize_enum e)) <$> l)) /\
       l ≡ₚ ModuleInfo.enums module /\
       StronglySorted (fun a b => str_le (EnumInfo.name a) (EnumInfo.name b)) l /\
       forall n, filter (fun e => EnumInfo.name e = n) l
                 = filter (fun e => EnumInfo.name e = n) (ModuleInfo.enums module)).
Proof.
  split; intros Hne; eexists; (split; [|apply sorted_by_name_spec]).
  - by rewrite module_typedefs, truthy_ne.
  - by rewrite module_enums, truthy_ne.
Qed.

(** ** Mappings keyed by name *)

Lemma getitem_fold_setitem (k : string) (pairs d : dict) :
  getitem k (fold_left (fun d kv => setitem kv.1 kv.2 d) pairs d)
  = match last (filter (fun kv : string * value => kv.1 = k) pairs) with
    | Some kv => Some kv.2
    | None => getitem k d
    end.
Proof.
  revert d. induction pairs as [|[k0 v0] pairs IH]; intros d; [done|].
  cbn [fold_left]. rewrite IH, filter_cons. cbn [fst snd].
  destruct (decide (k0 = k)) as [->|Hne].
  - rewrite last_cons.
    destruct (last (filter _ pairs)); [done|].
    by rewrite getitem_setitem, String.eqb_refl.
  - destruct (last (filter _ pairs)); [done|].
    rewrite getitem_setitem. by apply String.eqb_neq in Hne as ->.
Qed.

Lemma filter_named {A} (name : A -> string) (f : A -> value) (n : string) (l : list A) :
  filter (fun kv : string * value => kv.1 = n) ((fun x => (name x, f x)) <$> l)
  = (fun x => (name x, f x)) <$> filter (fun x => name x = n) l.
Proof.
  induction l as [|x l IH]; [done|].
  rewrite fmap_cons, !filter_cons. cbn [fst].
  destruct (decide (name x = n)); by rewrite IH.
Qed.

(** Looking a name up in the mapping built from the sorted entities gives
    the last stored entity of that name. *)
Lemma getitem_OrderedDict_named {A} (name : A -> string) (f : A -> value)
    (n : string) (l : list A) :
  getitem n (OrderedDict ((fun x => (name x, f x)) <$> sorted name l))
  = f <$> last_named name n l.
Proof.
  unfold OrderedDict, last_named.
  rewrite getitem_fold_setitem, filter_named, fmap_last, (filter_sorted name).
  by destruct (last _).
Qed.

Lemma length_setitem (k : string) (v : value) (d : dict) :
  (length (setitem k v d) <= S (length d))%nat.
Proof.
  induction d as [|[k0 v0] d IH]; simpl; [lia|].
  destruct (String.eqb k0 k); simpl; lia.
Qed.

Lemma length_fold_setitem (pairs d : dict) :
  (length (fold_left (fun d kv => setitem kv.1 kv.2 d) pairs d)
   <= length d + length pairs)%nat.
Proof.
  revert d. induction pairs as [|[k v] pairs IH]; intros d; simpl; [lia|].
  etrans; [apply IH|]. pose proof (length_setitem k v d). lia.
Qed.

Lemma len_OrderedDict_named_le {A} (name : A -> string) (f : A -> value) (l : list A) :
  len (OrderedDict ((fun x => (name x, f x)) <$> sorted name l)) <= len l.
Proof.
  unfold len, OrderedDict.
  pose proof (length_fold_setitem ((fun x => (name x, f x)) <$> sorted name l) []) as Hle.
  rewrite length_fmap, (sorted_length name) in Hle. simpl in Hle. lia.
Qed.

(** X9. In the ['classes'] mapping of a serialised module a name leads to
    the serialised class that is stored last under that name, and to nothing
    when no class has the name; the mapping has at most as many entries as
    the module has classes.  The same holds for ['class_templates']. *)
Theorem module_mappings_by_name (module : ModuleInfo.t) (d : dict) :
  (getitem "classes" (serialize_module module) = Some (VOrderedDict d) ->
     (forall n, getitem n d
        = (fun cls => VOrderedDict (serialize_class cls))
          <$> last_named ClassInfo.name n (ModuleInfo.classes module)) /\
     len d <= len (ModuleInfo.classes module)) /\
  (getitem "class_templates" (serialize_module module) = Some (VOrderedDict d) ->
     (forall n, getitem n d
        = (fun tmpl => VOrderedDict (serialize_class_template tmpl))
          <$> last_named ClassTemplateInfo.name n (ModuleInfo.class_templates module)) /\
     len d <= len (ModuleInfo.class_templates module)).
Proof.
  split.
  - rewrite module_classes. destruct (truthy _); [|done]. intros [= <-]. split.
    + intros n. apply getitem_OrderedDict_named.
    + apply len_OrderedDict_named_le.
  - rewrite module_class_templates. destruct (truthy _); [|done].
    intros [= <-]. split.
    + intros n. apply getitem_OrderedDict_named.
    + apply len_OrderedDict_named_le.
Qed.

(** X10. In the ['modules'] mapping a name leads to the serialised module
    that is stored last under that name; the mapping has at most
    ['total_modules'] entries, and exactly that many when the module names are
    unique. *)
Theorem serialized_modules_by_name (modules : list ModuleInfo.t) :
  (forall n, getitem n (serialized_modules modules)
     = (fun m => VOrderedDict (serialize_module m))
       <$> last_named ModuleInfo.name n modules) /\
  len (serialized_modules modules) <= len modules /\
  getitem "total_modules" (summary modules) = Some (VInt (len modules)) /\
  (NoDup (ModuleInfo.name <$> modules) ->
     len (serialized_modules modules) = len modules).
Proof.
  split_and!.
  - intros n. apply getitem_OrderedDict_named.
  - apply len_OrderedDict_named_le.
  - reflexivity.
  - intros Hnd. by apply len_OrderedDict_named.
Qed.

(** ** The summary *)

Lemma sum_counts_named (k : string) (f : ModuleInfo.t -> Z) (l : list ModuleInfo.t) :
  (forall m, count_of k (serialize_module m) = Some (VInt (f m))) ->
  sum_counts k ((fun m => (ModuleInfo.name m, VOrderedDict (serialize_module m))) <$> l)
  = fold_left Z.add (f <$> l) 0.
Proof.
  intros Hk. unfold sum_counts. f_equal.
  rewrite <-list_fmap_compose. apply list_fmap_ext.
  intros i m _. simpl. by rewrite Hk.
Qed.

Lemma total_sum_counts {A} (k : string) (f : ModuleInfo.t -> list A)
    (modules : list ModuleInfo.t) :
  (forall m, count_of k (serialize_module m) = Some (VInt (len (f m)))) ->
  NoDup (ModuleInfo.name <$> modules) ->
  total f modules = sum_counts k (serialized_modules modules).
Proof.
  intros Hk Hnd. unfold serialized_modules.
  rewrite OrderedDict_NoDup.
  - rewrite (sum_counts_named k (fun m => len (f m))) by done.
    unfold total. apply fold_left_add_perm.
    by rewrite (sorted_perm ModuleInfo.name).
  - rewrite keys_named. by rewrite (sorted_perm ModuleInfo.name).
Qed.

(** X11. With unique module names, each total of the summary is the sum of
    the corresponding count over the serialised modules: classes, class
    templates, typedefs, enums and functions.  The summary has no total for
    the operators. *)
Theorem summary_totals (modules : list ModuleInfo.t) :
  NoDup (ModuleInfo.name <$> modules) ->
  getitem "total_classes" (summary modules)
    = Some (VInt (sum_counts "classes" (serialized_modules modules))) /\
  getitem "total_class_templates" (summary modules)
    = Some (VInt (sum_counts "class_templates" (serialized_modules modules))) /\
  getitem "total_typedefs" (summary modules)
    = Some (VInt (sum_counts "typedefs" (serialized_modules modules))) /\
  getitem "total_enums" (summary modules)
    = Some (VInt (sum_counts "enums" (serialized_modules modules))) /\
  getitem "total_functions" (summary modules)
    = Some (VInt (sum_counts "functions" (serialized_modules modules))) /\
  getitem "total_operators" (summary modules) = None.
Proof.
  intros Hnd. unfold summary. cbn [getitem String.eqb Ascii.eqb Bool.eqb].
  split_and!; [..|done]; do 2 f_equal; apply total_sum_counts; try done;
    intros m; apply module_counts.
Qed.

(** ** Complete runs *)

(** X12. When the snapshot exists and unpickles, the destination can be
    opened and [yaml.dump] runs to the end, the run ends with status 0; the
    destination then holds the dump of the structure built from the modules,
    the other files are as before, and the run has looked the snapshot up,
    read it, opened the destination and printed its progress lines, in this
    order. *)
Theorem complete_run
    (env : libs) (prog argv1 : string) (rest : list string) (w : world)
    (bytes : string) (modules : list ModuleInfo.t) (d : path) (text : string) :
  files w !! path_str (Path argv1) = Some bytes ->
  pickle_load env bytes = Some modules ->
  destination (prog :: argv1 :: rest) = Some d ->
  writable env (path_str d) = true ->
  yaml_dump env (VOrderedDict (output modules)) = (text, true) ->
  run env (prog :: argv1 :: rest) w
  = (0, {| files := <[path_str d := text]> (files w);
           trace := trace w ++ progress_before (Path argv1) d modules
                            ++ progress_after modules |}).
Proof.
  intros Hfile Hload Hdest Hw Hdump. unfold run, main, destination in *.
  destruct rest as [|argv2 rest]; [|injection Hdest as <-]; run_main;
    rewrite Hfile; simpl; rewrite ?Hdest; simpl;
    rewrite Hfile, Hload; simpl; rewrite Hw, Hdump; simpl;
    rewrite insert_insert_eq; unfold progress_before, progress_after;
    by rewrite <-!app_assoc.
Qed.

(** X13. The exit status is 0 or 1.  It is 0 only after a complete dump:
    the snapshot was there and unpickled to some modules, and the destination
    holds the whole text that [yaml.dump] writes for the structure built from
    them. *)
Theorem status_zero_only_when_dumped (env : libs) (argv : list string) (w : world) :
  ((run env argv w).1 = 0 \/ (run env argv w).1 = 1) /\
  ((run env argv w).1 = 0 ->
     exists argv1 bytes modules d text,
       argv !! 1%nat = Some argv1 /\
       files w !! path_str (Path argv1) = Some bytes /\
       pickle_load env bytes = Some modules /\
       destination argv = Some d /\
       yaml_dump env (VOrderedDict (output modules)) = (text, true) /\
       files (run env argv w).2 !! path_str d = Some text).
Proof.
  unfold run, main. destruct argv as [|prog [|argv1 rest]].
  - split; [by right|done].
  - split; [by right|done].
  - run_main.
    split.
    + repeat (case_match; simplify_eq/=); auto.
    + intros Hz. repeat (case_match; simplify_eq/=).
      all: eexists _, _, _, _, _; split_and!; try done; try eassumption.
      all: by rewrite lookup_insert_eq.
Qed.

(** X14. A run changes no file other than its destination: every other
    path leads to the same contents, or to nothing, as before the run; a run
    without a destination changes no file at all. *)
Theorem only_destination_changes
    (env : libs) (argv : list string) (w : world) (q : string) :
  (forall d, destination argv = Some d -> q <> path_str d) ->
  files (run env argv w).2 !! q = files w !! q.
Proof.
  unfold run, main, destination. destruct argv as [|prog [|argv1 rest]]; [done..|].
  run_main. intros Hq.
  repeat (case_match; simplify_eq/=); try done.
  all: rewrite !lookup_insert_ne; [done|..]; intros Heq; by eapply Hq.
Qed.

(** ** Independence of the stored order, for every collection *)














(** ** What the serialised signatures determine *)

Lemma same_args_of_projection (a1 a2 : list arg) :
  args_without_defaults a1 = args_without_defaults a2 -> same_args_but_defaults a1 a2.
Proof.
  unfold args_without_defaults, same_args_but_defaults.
  revert a2. induction a1 as [|[[n1 t1] d1] a1 IH]; intros [|[[n2 t2] d2] a2];
    rewrite ?fmap_cons; try done.
  intros [= -> -> Hrest]. constructor; [done|]. by apply IH.
Qed.

#[local] Instance VPair_inj : Inj (=) (=) VPair.
Proof. intros [a b] [c d]. unfold VPair. simpl. congruence. Qed.

#[local] Instance VOpt_inj : Inj (=) (=) VOpt.
Proof. intros [a|] [b|]; simpl; congruence. Qed.

(** X19. Two functions are serialised alike exactly when they agree on the
    name, the return type, the names and types of the arguments in order, the
    inline flag and the namespace; two methods exactly when they agree on the
    name, the return type, the names and types of the arguments and the four
    flags.  Default values are the only part of the record that is not in the
    serialised form. *)
Theorem signatures_equal_iff
    (f1 f2 : FunctionInfo.t) (m1 m2 : MethodInfo.t) :
  (serialize_function f1 = serialize_function f2 <-> same_function_but_defaults f1 f2) /\
  (serialize_method m1 = serialize_method m2 <-> same_method_but_defaults m1 m2).
Proof.
  split; split.
  - unfold serialize_function. intros [= Hn Hr Ha Hi Hs].
    apply (inj VOpt) in Hr. apply (inj (fmap VPair)) in Ha.
    unfold same_function_but_defaults. split_and!; try done.
    by apply same_args_of_projection.
  - intros (Hn & Hr & Ha & Hi & Hs). unfold serialize_function.
    by rewrite Hn, Hr, Hi, Hs, (args_without_defaults_same _ _ Ha).
  - unfold serialize_method. intros [= Hn Hr Ha Hc Hv Hp Hi].
    apply (inj VOpt) in Hr. apply (inj (fmap VPair)) in Ha.
    unfold same_method_but_defaults. split_and!; try done.
    by apply same_args_of_projection.
  - intros (Hn & Hr & Ha & Hc & Hv & Hp & Hi). unfold serialize_method.
    by rewrite Hn, Hr, Hc, Hv, Hp, Hi, (args_without_defaults_same _ _ Ha).
Qed.

(** X20. The serialised field determines the field, and the serialised
    enum the enum: two fields, or two enums, that differ in anything are
    serialised differently. *)
Theorem field_and_enum_determined
    (f1 f2 : FieldInfo.t) (e1 e2 : EnumInfo.t) :
  (serialize_field f1 = serialize_field f2 -> f1 = f2) /\
  (serialize_enum e1 = serialize_enum e2 -> e1 = e2).
Proof.
  split.
  - destruct f1, f2. unfold serialize_field. simpl. by intros [= -> -> -> ->].
  - apply serialize_enum_inj.
Qed.

(** ** The sort key on text outside ASCII *)

(** A character that is not printable is escaped, with two digits up to
    U+00FF and four up to U+FFFF; a printable one is copied. *)
Lemma repr_str_nbsp :
  isprintable 160 = false -> repr_str nbsp = String squote (String backslash "xa0'").
Proof.
  unfold isprintable. intros Hp. vm_compute. rewrite Hp. reflexivity.
Qed.

Lemma repr_str_zwsp :
  isprintable 8203 = false -> repr_str zwsp = String squote (String backslash "u200b'").
Proof.
  unfold isprintable. intros Hp. vm_compute. rewrite Hp. reflexivity.
Qed.

Lemma repr_str_e_acute :
  isprintable 233 = true -> repr_str e_acute = char squote +:+ e_acute +:+ char squote.
Proof.
  unfold isprintable. intros Hp. vm_compute. rewrite Hp. reflexivity.
Qed.

Lemma str_signature_nbsp :
  isprintable 160 = false ->
  str_signature [nbsp] = "{'arg_types': [" +:+ String squote (String backslash "xa0']}").
Proof.
  unfold isprintable. intros Hp. vm_compute. rewrite Hp. reflexivity.
Qed.

(** ASCII text has the same [repr] whatever the table. *)
Lemma repr_body_ascii (other : Unicode) (quote : ascii) (s : string) :
  ascii_text s -> @repr_body other quote s = @repr_body unicode quote s.
Proof.
  unfold ascii_text. induction s as [|c s IH]; [done|].
  cbn [String.list_ascii_of_string]. intros [Hc Hs]%Forall_cons.
  apply N.ltb_lt in Hc. cbn [repr_body]. rewrite Hc. by rewrite IH.
Qed.

Lemma repr_str_ascii (other : Unicode) (s : string) :
  ascii_text s -> @repr_str other s = @repr_str unicode s.
Proof. intros Hs. unfold repr_str. by rewrite (repr_body_ascii other). Qed.

Lemma str_signature_ascii (other : Unicode) (sig : list string) :
  Forall ascii_text sig -> @str_signature other sig = @str_signature unicode sig.
Proof.
  intros Hsig. unfold str_signature, str_list.
  assert ((@repr_str other <$> sig) = (@repr_str unicode <$> sig)) as ->; [|done].
  induction Hsig as [|x l Hx _ IH]; [done|].
  rewrite !fmap_cons, IH. by rewrite (repr_str_ascii other).
Qed.

Lemma insert_by_ext {A K} `{PyOrd K} (key1 key2 : A -> K) (x : A) (l : list A) :
  key1 x = key2 x -> Forall (fun y => key1 y = key2 y) l ->
  insert_by key1 x l = insert_by key2 x l.
Proof.
  intros Hx. induction 1 as [|y l Hy _ IH]; [done|].
  cbn [insert_by]. rewrite Hx, Hy. by rewrite IH.
Qed.

Lemma sorted_ext {A K} `{PyOrdLaws K} (key1 key2 : A -> K) (l : list A) :
  Forall (fun y => key1 y = key2 y) l -> sorted key1 l = sorted key2 l.
Proof.
  induction 1 as [|x l Hx Hl IH]; [done|].
  cbn [sorted foldr]. fold (sorted key1 l) (sorted key2 l). rewrite <-IH.
  apply insert_by_ext; [done|]. by rewrite (sorted_perm key1).
Qed.

(** A class whose constructors take arguments of ASCII types only is
    serialised alike whatever the table. *)
Lemma serialize_class_ascii (other : Unicode) (cls : ClassInfo.t) :
  Forall (fun c => Forall ascii_text (arg_types c)) (ClassInfo.constructors cls) ->
  @serialize_class other cls = @serialize_class unicode cls.
Proof.
  intros Hc. unfold serialize_class.
  rewrite (sorted_ext (@str_signature other) (@str_signature unicode)); [done|].
  apply Forall_fmap. eapply Forall_impl; [exact Hc|].
  intros c Hargs. by apply (str_signature_ascii other).
Qed.

(** With U+00A0 not printable, its escape puts the constructor that takes
    it before those that take [e] and [z]. *)
Lemma constructor_signatures_three :
  isprintable 160 = false ->
  getitem "constructor_signatures" (serialize_class class_three)
  = Some (VList [ VDict [("arg_types", VList [VStr nbsp])];
                  VDict [("arg_types", VList [VStr "e"])];
                  VDict [("arg_types", VList [VStr "z"])] ]).
Proof.
  intros Hp. rewrite class_constructor_signatures.
  cbn [truthy class_three ClassInfo.constructors].
  rewrite (sorted_ext (@str_signature unicode) (@str_signature ascii_table));
    [reflexivity|].
  repeat constructor.
  cbn [fmap list_fmap constructor_signature arg_types ctor_of MethodInfo.args].
  by rewrite (str_signature_nbsp Hp).
Qed.

End properties.

(** * The properties on the sample metadata

    The sample metadata is ASCII text; the table of printable characters is
    not consulted for it. *)

#[local] Existing Instance ascii_table.

Example repr_plain : repr_str "int" = "'int'".
Proof. reflexivity. Qed.

(** A single quote in the text switches to double quotes. *)
Example repr_single_quote :
  repr_str (String squote "a") = String dquote (String squote (String "a" (char dquote))).
Proof. reflexivity. Qed.

(** With both quotes in the text the single quote is escaped. *)
Example repr_both_quotes :
  repr_str (String squote (char dquote))
  = String squote (String backslash (String squote (String dquote (char squote)))).
Proof. reflexivity. Qed.

Example repr_newline :
  repr_str (String (ascii_of_N 10) "a") = String squote (String backslash "na'").
Proof. reflexivity. Qed.

Example str_signature_two :
  str_signature ["double"; "const Widget &"]
  = "{'arg_types': ['double', 'const Widget &']}".
Proof. reflexivity. Qed.

Example str_signature_none : str_signature [] = "{'arg_types': []}".
Proof. reflexivity. Qed.

Example path_str_normalised : path_str (Path "./out//parsed_output.pkl") = "out/parsed_output.pkl".
Proof. reflexivity. Qed.

Example with_name_sibling :
  path_str <$> with_name (Path "/tmp/out/parsed_output.pkl") "parsed_dump.yml"
  = Some "/tmp/out/parsed_dump.yml".
Proof. reflexivity. Qed.

Example with_name_no_name : with_name (Path "/") "parsed_dump.yml" = None.
Proof. reflexivity. Qed.

(** Equal keys keep the order of the input. *)
Example sorted_stable :
  sorted fst [("b", 1); ("a", 2); ("b", 0); ("a", 1)]
  = [("a", 2); ("a", 1); ("b", 1); ("b", 0)].
Proof. reflexivity. Qed.

(** A key given twice keeps its first position and its last value. *)
Example OrderedDict_repeated_key :
  OrderedDict [("a", VInt 1); ("b", VInt 2); ("a", VInt 3)]
  = [("a", VInt 3); ("b", VInt 2)].
Proof. reflexivity. Qed.

(** The scenario of the specification. *)
Example scenario_module :
  serialized_modules [module_scenario]
  = [ ("Core", VOrderedDict
        [ ("name", VStr "Core");
          ("dependencies", VList []);
          ("namespaces", VList []);
          ("counts", VOrderedDict
             [ ("headers", VInt 0); ("classes", VInt 1); ("class_templates", VInt 0);
               ("typedefs", VInt 0); ("enums", VInt 0); ("functions", VInt 0);
               ("operators", VInt 0) ]);
          ("classes", VOrderedDict
             [ ("Widget", VOrderedDict
                  [ ("name", VStr "Widget");
                    ("abstract", VBool false);
                    ("superclass", VList [VStr "Base"]);
                    ("counts", VOrderedDict
                       [ ("constructors", VInt 0); ("methods", VInt 2);
                         ("static_methods", VInt 0); ("operators", VInt 0);
                         ("fields", VInt 0); ("enums", VInt 0) ]);
                    ("method_names", VList [VStr "draw"; VStr "resize"]) ]) ]) ]) ].
Proof. reflexivity. Qed.

(** C7, as stated, fails: for a class whose only constructor takes
    [(x : double, y : double)], the entry emitted is
    [{'arg_types': ['double', 'double']}]; it has no name, no argument names
    and no flags, it is not the detail that the specification describes, and
    renaming the arguments leaves the serialised class unchanged. *)
Lemma constructor_detail_counterexample :
  ClassInfo.constructors (class_point ctor_xy) <> [] /\
  getitem "constructor_signatures" (serialize_class (class_point ctor_xy))
    = Some (VList [VDict [("arg_types", VList [VStr "double"; VStr "double"])]]) /\
  getitem "constructor_signatures" (serialize_class (class_point ctor_xy))
    <> Some (VList [VDict (spec_constructor_detail ctor_xy)]) /\
  spec_constructor_detail ctor_xy <> spec_constructor_detail ctor_uv /\
  serialize_class (class_point ctor_xy) = serialize_class (class_point ctor_uv).
Proof. split_and!; done. Qed.

Lemma constructor_signatures_emitted_witness :
  exists sigs,
    getitem "constructor_signatures" (serialize_class class_widget)
      = Some (VList ((fun sig => VDict [("arg_types", VList (VStr <$> sig))]) <$> sigs)) /\
    sigs ≡ₚ arg_types <$> ClassInfo.constructors class_widget /\
    StronglySorted signature_le sigs.
Proof. apply (constructor_signatures_emitted class_widget). discriminate. Defined.

(** The two constructors of the sample class come out ordered by the text of
    their entries. *)
Example constructor_signatures_widget :
  getitem "constructor_signatures" (serialize_class class_widget)
  = Some (VList [ VDict [("arg_types", VList [VStr "const Widget &"])];
                  VDict [("arg_types", VList [VStr "double"; VStr "double"])] ]).
Proof. reflexivity. Qed.

Lemma default_values_excluded_witness :
  serialize_function (function_scale None) = serialize_function (function_scale (Some "1.0")) /\
  serialize_method method_draw = serialize_method method_draw_defaults /\
  serialize_class (with_constructors (class_point ctor_xy) [ctor_xy_defaults])
    = serialize_class (class_point ctor_xy).
Proof.
  pose proof (default_values_excluded
                (function_scale None) (function_scale (Some "1.0"))
                method_draw method_draw_defaults
                (class_point ctor_xy) [ctor_xy_defaults]) as (Hf & Hm & Hc).
  split_and!.
  - apply Hf. unfold same_function_but_defaults, same_args_but_defaults. simpl.
    split_and!; try reflexivity. repeat constructor.
  - apply Hm. unfold same_method_but_defaults, same_args_but_defaults. simpl.
    split_and!; try reflexivity. repeat constructor.
  - apply Hc. unfold same_method_but_defaults, same_args_but_defaults. simpl.
    repeat constructor.
Defined.

Lemma empty_collections_omitted_witness :
  getitem "fields" (serialize_class class_base) = None /\
  getitem "enums" (serialize_class_template template_array) = None /\
  getitem "operator_names" (serialize_module module_core) = None /\
  getitem "template_args" (serialize_typedef typedef_plain) = None /\
  exists l, getitem "fields" (serialize_class class_cell) = Some (VList l) /\
            l = [VDict (serialize_field field_width)] /\ length l = 1%nat.
Proof.
  pose proof (empty_collections_omitted class_base template_array module_core
                typedef_plain field_width)
    as (_ & (_ & He & _) & (_ & _ & _ & _ & _ & Ho) & Ht & Hf & _).
  pose proof (empty_collections_omitted class_cell template_array module_core
                typedef_plain field_width)
    as (_ & _ & _ & _ & _ & Hone).
  split_and!.
  - apply Hf. reflexivity.
  - apply He. reflexivity.
  - apply Ho. reflexivity.
  - apply Ht. left. reflexivity.
  - apply Hone. reflexivity.
Defined.


Lemma sort_correctness_witness :
  exists d,
    VOrderedDict (OrderedDict
      [("Base", VOrderedDict (serialize_class class_base));
       ("Widget", VOrderedDict (serialize_class class_widget))]) = VOrderedDict d /\
    StronglySorted str_lt (keys d).
Proof.
  pose proof (sort_correctness module_core class_widget template_array) as (Hc & _).
  apply Hc. reflexivity.
Defined.

(** The type parameters of the sample template keep their stored order,
    which is not the sorted one. *)
Example type_params_array :
  getitem "type_params" (serialize_class_template template_array)
  = Some (VList
      [ VDict [("type", VStr "typename"); ("name", VStr "T"); ("default", VNone)];
        VDict [("type", VStr "int"); ("name", VStr "N"); ("default", VStr "3")] ]).
Proof. reflexivity. Qed.


(** The functions of the sample module: by name, then by argument count. *)
Example function_names_core :
  getitem "function_names" (serialize_module module_core)
  = Some (VList [ VDict [("name", VStr "area"); ("arg_count", VInt 0)];
                  VDict [("name", VStr "scale"); ("arg_count", VInt 1)];
                  VDict [("name", VStr "scale"); ("arg_count", VInt 2)] ]).
Proof. reflexivity. Qed.


Lemma order_independence_witness :
  serialized_modules snapshot_a = serialized_modules snapshot_b /\
  output snapshot_a = output snapshot_b.
Proof.
  apply (order_independence snapshot_a snapshot_b).
  - split; [compute_done|].
    repeat constructor; simpl; compute_done.
  - exists [module_aux; module_core]. split; [apply perm_swap|].
    constructor; [|constructor; [|constructor]].
    + unfold same_module. split_and!; try reflexivity.
      * by exists [].
      * by exists [].
    + unfold same_module. simpl. split_and!; try reflexivity.
      * exists [class_base; class_widget]. split; [apply perm_swap|].
        constructor; [|constructor; [|constructor]].
        -- unfold same_class. by split_and!.
        -- unfold same_class. simpl. split_and!; try reflexivity; apply perm_swap.
      * exists [template_array]. split; [done|].
        constructor; [|constructor].
        unfold same_template, same_class. by split_and!.
      * apply perm_swap.
Defined.

(** The two sample snapshots differ, and are written alike. *)
Example snapshots_differ : snapshot_a <> snapshot_b.
Proof. discriminate. Qed.



Lemma usage_and_missing_snapshot_witness :
  run env_dump_fails argv_none world_snapshot_only
    = (1, {| files := files world_snapshot_only; trace := Stdout <$> usage |}) /\
  run env_dump_fails argv_missing world_snapshot_only
    = (1, {| files := files world_snapshot_only;
             trace := [ PathExists "missing.pkl";
                        Stdout "Error: File not found: missing.pkl" ] |}).
Proof.
  pose proof (usage_and_missing_snapshot env_dump_fails world_snapshot_only)
    as [Husage Hmissing].
  split.
  - apply (Husage argv_none). simpl. lia.
  - apply (Hmissing "dump_parsed.py" "missing.pkl" []). by vm_compute.
Defined.

Lemma serialize_typedef_optional_witness :
  getitem "template_base" (serialize_typedef typedef_vector) = Some (VStr "Array") /\
  getitem "template_args" (serialize_typedef typedef_vector)
    = Some (VList [VStr "gp_Pnt"]).
Proof.
  destruct (serialize_typedef_optional typedef_vector) as (Hb & Ha & _).
  split.
  - apply Hb. exists "Array". by split_and!.
  - apply Ha. exists ["gp_Pnt"]. by split_and!.
Defined.

Lemma class_name_lists_witness :
  exists l, getitem "method_names" (serialize_class class_widget)
            = Some (VList (VStr <$> l)) /\
    l ≡ₚ MethodInfo.name <$> ClassInfo.methods class_widget /\
    StronglySorted str_le l.
Proof.
  destruct (class_name_lists class_widget) as (Hm & _).
  apply Hm. discriminate.
Defined.

Lemma class_detail_lists_witness :
  exists l, getitem "fields" (serialize_class class_widget)
            = Some (VList ((fun f => VDict (serialize_field f)) <$> l)) /\
    l ≡ₚ ClassInfo.fields class_widget /\
    StronglySorted (fun a b => str_le (FieldInfo.name a) (FieldInfo.name b)) l /\
    forall n, filter (fun f => FieldInfo.name f = n) l
              = filter (fun f => FieldInfo.name f = n) (ClassInfo.fields class_widget).
Proof.
  destruct (class_detail_lists class_widget) as (Hf & _).
  apply Hf. discriminate.
Defined.

Lemma module_detail_lists_witness :
  exists l, getitem "enums" (serialize_module module_core)
            = Some (VList ((fun e => VDict (serialize_enum e)) <$> l)) /\
    l ≡ₚ ModuleInfo.enums module_core /\
    StronglySorted (fun a b => str_le (EnumInfo.name a) (EnumInfo.name b)) l /\
    forall n, filter (fun e => EnumInfo.name e = n) l
              = filter (fun e => EnumInfo.name e = n) (ModuleInfo.enums module_core).
Proof.
  destruct (module_detail_lists module_core) as (_ & He).
  apply He. discriminate.
Defined.

Lemma module_mappings_by_name_witness :
  getitem "Widget"
    (OrderedDict
       [("Base", VOrderedDict (serialize_class class_base));
        ("Widget", VOrderedDict (serialize_class class_widget))])
  = Some (VOrderedDict (serialize_class class_widget)).
Proof.
  destruct (module_mappings_by_name module_core
              (OrderedDict
                 [("Base", VOrderedDict (serialize_class class_base));
                  ("Widget", VOrderedDict (serialize_class class_widget))]))
    as (Hc & _).
  destruct Hc as [Hget _]; [reflexivity|].
  apply (Hget "Widget").
Defined.

Lemma serialized_modules_by_name_witness :
  len (serialized_modules snapshot_a) = len snapshot_a.
Proof.
  destruct (serialized_modules_by_name snapshot_a) as (_ & _ & _ & Hlen).
  apply Hlen. compute_done.
Defined.

Lemma summary_totals_witness :
  getitem "total_classes" (summary snapshot_a)
  = Some (VInt (sum_counts "classes" (serialized_modules snapshot_a))).
Proof. apply (summary_totals snapshot_a). compute_done. Defined.

Lemma complete_run_witness :
  run env_fine argv_snapshot world_snapshot_only
  = (0, {| files := <["out/parsed_dump.yml" := "summary: ..."]>
                      (files world_snapshot_only);
           trace := progress_before (Path "out/parsed_output.pkl")
                      (Path "out/parsed_dump.yml") snapshot_a
                    ++ progress_after snapshot_a |}).
Proof.
  apply (complete_run env_fine "dump_parsed.py" "out/parsed_output.pkl" []
           world_snapshot_only "snapshot" snapshot_a (Path "out/parsed_dump.yml")
           "summary: ..."); by vm_compute.
Defined.

Lemma status_zero_only_when_dumped_witness :
  exists argv1 bytes modules d text,
    argv_snapshot !! 1%nat = Some argv1 /\
    files world_snapshot_only !! path_str (Path argv1) = Some bytes /\
    pickle_load env_fine bytes = Some modules /\
    destination argv_snapshot = Some d /\
    yaml_dump env_fine (VOrderedDict (output modules)) = (text, true) /\
    files (run env_fine argv_snapshot world_snapshot_only).2 !! path_str d = Some text.
Proof.
  destruct (status_zero_only_when_dumped env_fine argv_snapshot world_snapshot_only)
    as [_ Hz].
  apply Hz. by vm_compute.
Defined.

Lemma only_destination_changes_witness :
  files (run env_fine argv_snapshot world_snapshot_only).2 !! "out/parsed_output.pkl"
  = files world_snapshot_only !! "out/parsed_output.pkl".
Proof.
  apply (only_destination_changes env_fine argv_snapshot world_snapshot_only).
  intros d [= <-]. by vm_compute.
Defined.







Lemma signatures_equal_iff_witness :
  same_function_but_defaults (function_scale None) (function_scale (Some "1.0")) /\
  same_method_but_defaults method_draw method_draw_defaults.
Proof.
  destruct (signatures_equal_iff (function_scale None) (function_scale (Some "1.0"))
              method_draw method_draw_defaults) as [[Hf _] [Hm _]].
  split; [by apply Hf|by apply Hm].
Defined.

Lemma field_and_enum_determined_witness :
  field_width = field_width /\ enum_color = enum_color.
Proof.
  destruct (field_and_enum_determined field_width field_width enum_color enum_color)
    as [Hf He].
  split; [by apply Hf|by apply He].
Defined.
